(** * GitHubScraper: the resumable crawl engine

    A shallow embedding of the scraper's request governor
    ([utils/requestWrapper], in its two variants), of the week arithmetic of
    [utils/time] and of the crawl controller [Scraper.run], together with the
    properties the specification states about them.

    Conventions of the embedding:
    - JavaScript numbers that hold counters, cursors and epoch values are
      integers here ([Z]); [undefined]/[null] is [None].
    - a header object is a finite map from header names to strings.
    - the remote API is an oracle: what the [n]-th request issued by the
      process answers.  Every invocation of a request closure advances the
      call counter of the world.
    - the console, the clock and the checkpoint file are fields of the world
      that is threaded through every effectful function.
    - recursion that the source does not bound (the governor's retry loop, the
      [while] loop of [run]) takes a [fuel] argument; [Diverge] is returned
      only when the fuel runs out. *)

From Stdlib Require Import ZArith Lia Bool List String Ascii.
From stdpp Require Import base option strings gmap.

Import ListNotations.
Local Open Scope string_scope.
Local Open Scope list_scope.
Local Open Scope Z_scope.

(** ** Calendar dates ([moment] restricted to what the scraper uses) *)

Module Calendar.

(** A calendar date, the content of a ['YYYY-MM-DD'] string. *)
Record civil := Civil { year : Z; month : Z; day : Z }.

Definition is_leap (y : Z) : bool :=
  ((y mod 4 =? 0) && negb (y mod 100 =? 0)) || (y mod 400 =? 0).

Definition days_in_month (y m : Z) : Z :=
  if m =? 2 then (if is_leap y then 29 else 28)
  else if (m =? 4) || (m =? 6) || (m =? 9) || (m =? 11) then 30
  else 31.

Definition valid_civil (c : civil) : bool :=
  (1 <=? month c) && (month c <=? 12) &&
  (1 <=? day c) && (day c <=? days_in_month (year c) (month c)).

(** Day number of a calendar date, counted from 1970-01-01 in the proleptic
    Gregorian calendar.  Years are grouped in eras of 400 years (146097
    days) that start on 1 March. *)
Definition days_from_civil (c : civil) : Z :=
  let y := if month c <=? 2 then year c - 1 else year c in
  let era := y / 400 in
  let yoe := y - era * 400 in
  let mp := if month c >? 2 then month c - 3 else month c + 9 in
  let doy := (153 * mp + 2) / 5 + day c - 1 in
  let doe := yoe * 365 + yoe / 4 - yoe / 100 + doy in
  era * 146097 + doe - 719468.

(** The year of the era, the day of that year and the month index (March
    is 0) of a day of the era. *)
Definition yoe_of_doe (doe : Z) : Z :=
  (doe - doe / 1460 + doe / 36524 - doe / 146096) / 365.

Definition doy_of_doe (doe : Z) : Z :=
  let yoe := yoe_of_doe doe in
  doe - (365 * yoe + yoe / 4 - yoe / 100).

Definition mp_of_doe (doe : Z) : Z := (5 * doy_of_doe doe + 2) / 153.

Definition civil_from_days (z : Z) : civil :=
  let z := z + 719468 in
  let era := z / 146097 in
  let doe := z - era * 146097 in
  let yoe := yoe_of_doe doe in
  let doy := doy_of_doe doe in
  let mp := mp_of_doe doe in
  let d := doy - (153 * mp + 2) / 5 + 1 in
  let m := if mp <? 10 then mp + 3 else mp - 9 in
  Civil (if m <=? 2 then yoe + era * 400 + 1 else yoe + era * 400) m d.

(** *** Decimal rendering and reading *)

Definition digit_char (d : Z) : ascii := ascii_of_nat (48 + Z.to_nat d).

Definition digit_val (c : ascii) : option Z :=
  let n := Z.of_nat (nat_of_ascii c) in
  if (48 <=? n) && (n <=? 57) then Some (n - 48) else None.

Fixpoint dec_aux (fuel : nat) (n : Z) (acc : string) : string :=
  match fuel with
  | O => acc
  | S fuel' =>
      let acc' := String (digit_char (n mod 10)) acc in
      if n <? 10 then acc' else dec_aux fuel' (n / 10) acc'
  end.

(** [String(n)] for a non-negative integer. *)
Definition dec (n : Z) : string := dec_aux (S (Z.to_nat (Z.log2 n))) n EmptyString.

Fixpoint zeros (k : nat) : string :=
  match k with O => EmptyString | S k' => String "0" (zeros k') end.

(** moment's [zeroFill(number, targetLength)]: the sign, then the absolute
    value padded with zeros to [targetLength] digits. *)
Definition zeroFill (n : Z) (targetLength : nat) : string :=
  let absNumber := dec (Z.abs n) in
  let zerosToFill := (targetLength - String.length absNumber)%nat in
  (if n <? 0 then "-" else EmptyString) +:+ zeros zerosToFill +:+ absNumber.

(** [m.format('YYYY-MM-DD')]. *)
Definition format_civil (c : civil) : string :=
  zeroFill (year c) 4 +:+ "-" +:+ zeroFill (month c) 2 +:+ "-" +:+ zeroFill (day c) 2.

Definition num2 (a b : ascii) : option Z :=
  match digit_val a, digit_val b with
  | Some x, Some y => Some (10 * x + y)
  | _, _ => None
  end.

Definition num4 (a b c d : ascii) : option Z :=
  match num2 a b, num2 c d with
  | Some x, Some y => Some (100 * x + y)
  | _, _ => None
  end.

Definition is_hyphen (c : ascii) : bool := Ascii.eqb c "-"%char.

(** [moment(s, 'YYYY-MM-DD')] on the canonical ten-character form that
    [format] produces and the checkpoint stores; every other string, and
    every date that does not exist (month 13, 30 February), is an invalid
    moment ([None]).  moment's forgiving reading of other spellings is
    outside the model. *)
Definition parse_civil (s : string) : option civil :=
  match list_ascii_of_string s with
  | [y1; y2; y3; y4; h1; m1; m2; h2; d1; d2] =>
      if is_hyphen h1 && is_hyphen h2 then
        match num4 y1 y2 y3 y4, num2 m1 m2, num2 d1 d2 with
        | Some y, Some m, Some d =>
            let c := Civil y m d in
            if valid_civil c then Some c else None
        | _, _, _ => None
        end
      else None
  | _ => None
  end.

Definition ms_per_day : Z := 86400000.

(** [m.valueOf()] of a date at midnight (the local zone is taken to be
    UTC). *)
Definition valueOf (c : civil) : Z := days_from_civil c * ms_per_day.

End Calendar.

Import Calendar.

(** ** [utils/time] *)

Module UtilsTime.

(** [getPreviousWeek]: parse, subtract one week (seven calendar days),
    format.  An invalid moment formats as ["Invalid date"]. *)
Definition getPreviousWeek (date : string) : string :=
  match parse_civil date with
  | Some c => format_civil (civil_from_days (days_from_civil c - 7))
  | None => "Invalid date"
  end.

Definition digit2 (a b : ascii) (hi : Z) : option Z :=
  match num2 a b with
  | Some n => if n <=? hi then Some n else None
  | None => None
  end.

(** The instant (milliseconds since the epoch) that [moment(s)] denotes, for
    the two spellings the scraper meets: a calendar date, and the API's
    timestamps ['YYYY-MM-DDTHH:mm:ssZ']. *)
Definition parse_instant (s : string) : option Z :=
  match parse_civil (substring 0 10 s), list_ascii_of_string (substring 10 11 s) with
  | Some c, [] => Some (valueOf c)
  | Some c, [t; h1; h2; c1; m1; m2; c2; s1; s2; z] =>
      if Ascii.eqb t "T" && Ascii.eqb c1 ":" && Ascii.eqb c2 ":" && Ascii.eqb z "Z" then
        match digit2 h1 h2 23, digit2 m1 m2 59, digit2 s1 s2 59 with
        | Some h, Some m, Some sec =>
            Some (valueOf c + ((h * 60 + m) * 60 + sec) * 1000)
        | _, _, _ => None
        end
      else None
  | _, _ => None
  end.

(** [moment(date, 'YYYY-MM-DD').isAfter(other)]; false as soon as one side
    is invalid. *)
Definition isAfter (date other : string) : bool :=
  match parse_civil date, parse_instant other with
  | Some c, Some t => valueOf c >? t
  | _, _ => false
  end.

End UtilsTime.

(** ** Interfaces *)

Module SearchItem.
Record t := Make { login : string }.
End SearchItem.

Module SearchData.
Record t := Make { items : list SearchItem.t; total_count : Z }.
End SearchData.

Module Repo.
Record t := Make {
  name : string;
  stargazers_count : option Z;
  watchers_count : option Z;
  forks_count : option Z;
  open_issues_count : option Z
}.
End Repo.

Module RepoWithEvents.
(** [{ ...repo, last_90_days_events_count }]. *)
Record t := Make { repo : Repo.t; last_90_days_events_count : Z }.
End RepoWithEvents.

Module Event.
Record t := Make { type : string }.
End Event.

Module PublicUser.
Record t := Make {
  login : string;
  id : Z;
  avatar_url : string;
  html_url : string;
  name : option string;
  company : option string;
  blog : option string;
  location : option string;
  email : option string;
  hireable : option bool;
  bio : option string;
  twitter_username : option string;
  public_repos : Z;
  followers : Z;
  following : Z;
  created_at : string;
  updated_at : string
}.
End PublicUser.

Module Organization.
Record t := Make {
  login : string;
  id : Z;
  avatarUrl : string;
  htmlUrl : string;
  name : option string;
  company : option string;
  blog : option string;
  location : option string;
  email : option string;
  hireable : option bool;
  bio : option string;
  twitterUsername : option string;
  publicRepos : Z;
  followers : Z;
  following : Z;
  createdAt : string;
  updatedAt : string;
  totalRepoStars : Z;
  totalRepoWatchers : Z;
  totalRepoForks : Z;
  totalRepoOpenIssues : Z;
  totalRepoLast90DaysEvents : Z
}.
End Organization.

Module ScrapingResult.
Record t := Make {
  nextPageToScrape : Z;
  searchingDate : string;
  organizations : list Organization.t
}.
End ScrapingResult.

(** ** Errors, responses and the world *)

Record Block := { reason : string }.

Record ErrorData := { message : option string; block : option Block }.

Record ErrorResponse := {
  data : option ErrorData;
  headers : gmap string string
}.

(** What a request or the governor can throw.  [RequestError] is the HTTP
    client's error; its [response] is absent when the failure happened before
    any answer arrived.  [RepoBlocked] and [RateLimitError] stand for the
    classes of [errors/]; [err instanceof RepoBlocked] is a match on the
    constructor.  A [RateLimitError] is built from the value of the reset
    header; the class is not among the sources, so what its instances hold
    under [response] is not fixed here: each instance carries it, and the
    governor that builds one takes the class as a parameter.  [TypeError] is
    what reading a property of [undefined] throws. *)
Inductive Err :=
| RequestError (response : option ErrorResponse)
| RepoBlocked (reason : string)
| RateLimitError (reset : option string) (response : option ErrorResponse)
| TypeError.

(** [err.response].  A [RepoBlocked] is thrown by the governor only, towards
    its caller, and the HTTP client never answers with one; a [TypeError] has
    no such property. *)
Definition response (err : Err) : option ErrorResponse :=
  match err with
  | RequestError r => r
  | RateLimitError _ r => r
  | RepoBlocked _ | TypeError => None
  end.

Inductive Response (D : Type) :=
| Ok (data : D) (headers : gmap string string)
| Throw (err : Err).
Arguments Ok {D} data headers.
Arguments Throw {D} err.

Inductive LogEntry :=
| LogError (err : Err)
| LogRateLimit (now : Z) (resetMoment : option Z)
| LogResumed (now : Z)
| LogOrganization (now count totalCount : Z) (name : option string)
    (login : string) (events stars : Z)
| LogFinished (now : Z).

(** The world: the clock (milliseconds since the epoch), the number of
    requests issued so far, the console, and every document written to the
    result location (the last one is the file's content). *)
Record World := MkWorld {
  now : Z;
  calls : nat;
  console : list LogEntry;
  disk : list ScrapingResult.t
}.

Definition called (w : World) : World :=
  MkWorld (now w) (S (calls w)) (console w) (disk w).

Definition log (entry : LogEntry) (w : World) : World :=
  MkWorld (now w) (calls w) (console w ++ [entry]) (disk w).

(** [await wait(ms)]: the clock moves on by [ms]; a negative or [NaN] delay
    fires at once. *)
Definition wait (milliseconds : option Z) (w : World) : World :=
  match milliseconds with
  | Some ms => MkWorld (now w + Z.max 0 ms) (calls w) (console w) (disk w)
  | None => w
  end.

Definition write (doc : ScrapingResult.t) (w : World) : World :=
  MkWorld (now w) (calls w) (console w) (disk w ++ [doc]).

(** Outcome of an effectful computation: a value, a thrown error, or no
    answer within the fuel. *)
Inductive Res (A : Type) :=
| Val (a : A) (w : World)
| Exn (err : Err) (w : World)
| Diverge.
Arguments Val {A} a w.
Arguments Exn {A} err w.
Arguments Diverge {A}.

Definition M (A : Type) : Type := World -> Res A.

Definition ret {A} (a : A) : M A := fun w => Val a w.

Definition bind {A B} (c : M A) (k : A -> M B) : M B :=
  fun w =>
    match c w with
    | Val a w' => k a w'
    | Exn err w' => Exn err w'
    | Diverge => Diverge
    end.

Notation "'do' x <- c ; k" := (bind c (fun x => k))
  (at level 10, x name, c at level 100, k at level 200).

(** [Number(s)] on what a header holds: [undefined] and text that is not a
    number give [NaN] ([None]), the empty string gives 0, a string of decimal
    digits its value. *)
Fixpoint digits_value (acc : Z) (cs : list ascii) : option Z :=
  match cs with
  | [] => Some acc
  | c :: cs' =>
      match digit_val c with
      | Some d => digits_value (10 * acc + d) cs'
      | None => None
      end
  end.

Definition Number (s : option string) : option Z :=
  match s with
  | Some s => digits_value 0 (list_ascii_of_string s)
  | None => None
  end.

Definition is_string (o : option string) (s : string) : bool :=
  match o with
  | Some s' => String.eqb s' s
  | None => false
  end.

(** [err.response?.data?.message] *)
Definition error_message (err : Err) : option string :=
  match response err with
  | Some r => match data r with Some d => message d | None => None end
  | None => None
  end.

(** [err.response?.headers[h]] *)
Definition error_header (h : string) (err : Err) : option string :=
  match response err with
  | Some r => headers r !! h
  | None => None
  end.

(** [moment.unix(Number(err.response.headers['x-ratelimit-reset']) + 1)], in
    milliseconds; an invalid moment when the header holds no number. *)
Definition resetMoment (err : Err) : option Z :=
  match Number (error_header "x-ratelimit-reset" err) with
  | Some seconds => Some ((seconds + 1) * 1000)
  | None => None
  end.

(** [m.diff(moment())]; [NaN] for an invalid moment. *)
Definition diff (m : option Z) (now : Z) : option Z :=
  match m with
  | Some t => Some (t - now)
  | None => None
  end.

(** ** [utils/requestWrapper]: the governor the scraper imports *)

Module Wrapper.

Definition retries_default : Z := 1.

(** [err.response?.data?.message === 'Repository access blocked'] *)
Definition blocked (err : Err) : bool :=
  is_string (error_message err) "Repository access blocked".

(** [err.response?.headers['x-ratelimit-remaining'] !== '0'] *)
Definition quota_left (err : Err) : bool :=
  negb (is_string (error_header "x-ratelimit-remaining" err) "0").

(** The notice, the wait until [resetMoment] and the second notice. *)
Definition await_reset (err : Err) (w : World) : World :=
  let w := log (LogRateLimit (now w) (resetMoment err)) w in
  let w := wait (diff (resetMoment err) (now w)) w in
  log (LogResumed (now w)) w.

Fixpoint requestWrapper {D} (fuel : nat) (request : nat -> Response D)
    (retries : Z) (w : World) : Res D :=
  match fuel with
  | O => Diverge
  | S fuel' =>
      match request (calls w) with
      | Ok data _ => Val data (called w)
      | Throw err =>
          let w := called w in
          if blocked err then
            match response err with
            | Some {| data := Some {| block := Some b |} |} =>
                Exn (RepoBlocked (reason b)) w
            | _ => Exn TypeError w
            end
          else if quota_left err then
            if negb (retries =? 0) then requestWrapper fuel' request (retries - 1) w
            else Exn err (log (LogError err) w)
          else requestWrapper fuel' request retries (await_reset err w)
      end
  end.

End Wrapper.

(** ** The other variant of the governor: a successful answer that reports an
    exhausted quota is thrown as a [RateLimitError] *)

Module StrictWrapper.

Definition retries_default : Z := 1.

Definition quota_left (err : Err) : bool :=
  negb (is_string (error_header "x-ratelimit-remaining" err) "0").

(** The notice and the wait until [resetMoment]. *)
Definition await_reset (err : Err) (w : World) : World :=
  let w := log (LogRateLimit (now w) (resetMoment err)) w in
  wait (diff (resetMoment err) (now w)) w.

(** The [catch] block; [again] is the recursive call. *)
Definition handler {D} (again : Z -> World -> Res D) (err : Err)
    (retries : Z) (w : World) : Res D :=
  if quota_left err then
    let w := log (LogError err) w in
    if negb (retries =? 0) then again (retries - 1) w
    else Exn err w
  else again retries (await_reset err w).

Section RateLimitErrorClass.

(** The class [errors/RateLimitError]: what an instance built from the value
    of the reset header exposes as [response]. *)
Variable RateLimitError_response : option string -> option ErrorResponse.

(** [new RateLimitError(reset)] *)
Definition new_RateLimitError (reset : option string) : Err :=
  RateLimitError reset (RateLimitError_response reset).

Fixpoint requestWrapper {D} (fuel : nat) (request : nat -> Response D)
    (retries : Z) (w : World) : Res D :=
  match fuel with
  | O => Diverge
  | S fuel' =>
      match request (calls w) with
      | Ok data headers =>
          if is_string (headers !! "x-ratelimit-remaining") "0" then
            handler (requestWrapper fuel' request)
              (new_RateLimitError (headers !! "x-ratelimit-reset")) retries (called w)
          else Val data (called w)
      | Throw err =>
          handler (requestWrapper fuel' request) err retries (called w)
      end
  end.

End RateLimitErrorClass.

End StrictWrapper.

(** ** The HTTP client *)

(** What the remote API answers to the request that the process issues as
    its [n]-th one. *)
Record Octokit := {
  search_users :
    string -> option string -> option string -> option Z -> option Z ->
    nat -> Response SearchData.t;
  get_user : string -> nat -> Response PublicUser.t;
  list_repos : string -> nat -> Response (list Repo.t);
  list_events : string -> string -> nat -> Response (list Event.t)
}.

(** ** The aggregation of an organization's repositories *)

Definition nullish (o : option Z) (d : Z) : Z :=
  match o with Some v => v | None => d end.

Definition totalRepoStars (repos : list RepoWithEvents.t) : Z :=
  fold_left (fun acc r => acc + nullish (Repo.stargazers_count (RepoWithEvents.repo r)) 0) repos 0.

Definition totalRepoWatchers (repos : list RepoWithEvents.t) : Z :=
  fold_left (fun acc r => acc + nullish (Repo.watchers_count (RepoWithEvents.repo r)) 0) repos 0.

Definition totalRepoForks (repos : list RepoWithEvents.t) : Z :=
  fold_left (fun acc r => acc + nullish (Repo.forks_count (RepoWithEvents.repo r)) 0) repos 0.

Definition totalRepoOpenIssues (repos : list RepoWithEvents.t) : Z :=
  fold_left (fun acc r => acc + nullish (Repo.open_issues_count (RepoWithEvents.repo r)) 0) repos 0.

Definition totalRepoLast90DaysEvents (repos : list RepoWithEvents.t) : Z :=
  fold_left (fun acc r => acc + RepoWithEvents.last_90_days_events_count r) repos 0.

(** ** The crawl controller *)

Module Scraper.

Import UtilsTime Wrapper.

(** The fields of the class (the [ready] promise apart: [run] is entered
    once it has resolved, with [totalCount] and [oldestOrgDate] set). *)
Record t := Make {
  octokit : Octokit;
  baseQuery : string;
  resultLocation : string;
  nextPageToScrape : Z;
  date : string;
  organizations : list Organization.t;
  totalCount : Z;
  oldestOrgDate : string
}.

Definition set_nextPageToScrape (v : Z) (this : t) : t :=
  Make (octokit this) (baseQuery this) (resultLocation this) v (date this)
    (organizations this) (totalCount this) (oldestOrgDate this).

Definition set_date (v : string) (this : t) : t :=
  Make (octokit this) (baseQuery this) (resultLocation this)
    (nextPageToScrape this) v (organizations this) (totalCount this)
    (oldestOrgDate this).

Definition set_organizations (v : list Organization.t) (this : t) : t :=
  Make (octokit this) (baseQuery this) (resultLocation this)
    (nextPageToScrape this) (date this) v (totalCount this)
    (oldestOrgDate this).

Definition checkpoint (this : t) : ScrapingResult.t :=
  ScrapingResult.Make (nextPageToScrape this) (date this) (organizations this).

Definition saveToFile (this : t) : M unit :=
  fun w => Val tt (write (checkpoint this) w).

Definition console_log (entry : World -> LogEntry) : M unit :=
  fun w => Val tt (log (entry w) w).

(** The [try]/[catch] around the events request of one repository. *)
Definition events_count (fuel : nat) (this : t) (owner : string)
    (repo : Repo.t) : M Z :=
  fun w =>
    match requestWrapper fuel (list_events (octokit this) owner (Repo.name repo))
            retries_default w with
    | Val events w' => Val (Z.of_nat (length events)) w'
    | Exn (RepoBlocked _) w' => Val 0 w'
    | Exn err w' => Exn err w'
    | Diverge => Diverge
    end.

(** [for (const repo of rawRepos)], with [repos] the array built so far. *)
Fixpoint with_events (fuel : nat) (this : t) (owner : string)
    (rawRepos : list Repo.t) (repos : list RepoWithEvents.t)
    : M (list RepoWithEvents.t) :=
  match rawRepos with
  | [] => ret repos
  | repo :: rest =>
      do last_90_days_events_count <- events_count fuel this owner repo;
      with_events fuel this owner rest
        (repos ++ [RepoWithEvents.Make repo last_90_days_events_count])
  end.

Definition make_org (publicUser : PublicUser.t)
    (repos : list RepoWithEvents.t) : Organization.t :=
  Organization.Make
    (PublicUser.login publicUser)
    (PublicUser.id publicUser)
    (PublicUser.avatar_url publicUser)
    (PublicUser.html_url publicUser)
    (PublicUser.name publicUser)
    (PublicUser.company publicUser)
    (PublicUser.blog publicUser)
    (PublicUser.location publicUser)
    (PublicUser.email publicUser)
    (PublicUser.hireable publicUser)
    (PublicUser.bio publicUser)
    (PublicUser.twitter_username publicUser)
    (PublicUser.public_repos publicUser)
    (PublicUser.followers publicUser)
    (PublicUser.following publicUser)
    (PublicUser.created_at publicUser)
    (PublicUser.updated_at publicUser)
    (totalRepoStars repos)
    (totalRepoWatchers repos)
    (totalRepoForks repos)
    (totalRepoOpenIssues repos)
    (totalRepoLast90DaysEvents repos).

(** [this.organizations.some((o) => o.login === organization.login)] *)
Definition known (this : t) (organization : SearchItem.t) : bool :=
  existsb (fun o => String.eqb (Organization.login o) (SearchItem.login organization))
    (organizations this).

(** The body of [for (const organization of orgs.items)]. *)
Definition scrape_organization (fuel : nat) (organization : SearchItem.t)
    (this : t) : M t :=
  if known this organization then ret this
  else
    do rawRepos <- requestWrapper fuel
                     (list_repos (octokit this) (SearchItem.login organization))
                     retries_default;
    if (length rawRepos =? 0)%nat then ret this
    else
      do publicUser <- requestWrapper fuel
                         (get_user (octokit this) (SearchItem.login organization))
                         retries_default;
      do repos <- with_events fuel this (SearchItem.login organization) rawRepos [];
      let org := make_org publicUser repos in
      let this := set_organizations (organizations this ++ [org]) this in
      do _ <- saveToFile this;
      do _ <- console_log (fun w =>
                LogOrganization (now w) (Z.of_nat (length (organizations this)))
                  (totalCount this) (Organization.name org) (Organization.login org)
                  (Organization.totalRepoLast90DaysEvents org)
                  (Organization.totalRepoStars org));
      ret this.

Fixpoint scrape_page (fuel : nat) (items : list SearchItem.t) (this : t) : M t :=
  match items with
  | [] => ret this
  | organization :: rest =>
      do this <- scrape_organization fuel organization this;
      scrape_page fuel rest this
  end.

(** The condition of the [while] loop. *)
Definition in_window (this : t) : bool := isAfter (date this) (oldestOrgDate this).

(** The search request of the current window and page. *)
Definition page_request (this : t) : nat -> Response SearchData.t :=
  let dateCreated := "created:" +:+ getPreviousWeek (date this) +:+ ".." +:+ date this in
  search_users (octokit this) (baseQuery this +:+ " " +:+ dateCreated)
    None None (Some (nextPageToScrape this)) (Some 100).

(** One turn of the [while] loop, entered with the condition true. *)
Definition iteration (fuel : nat) (this : t) : M t :=
  do orgs <- requestWrapper fuel (page_request this) retries_default;
  if (length (SearchData.items orgs) =? 0)%nat then
    let this := set_date (getPreviousWeek (date this)) this in
    let this := set_nextPageToScrape 1 this in
    do _ <- saveToFile this;
    ret this
  else
    do this <- scrape_page fuel (SearchData.items orgs) this;
    let this := set_nextPageToScrape (nextPageToScrape this + 1) this in
    do _ <- saveToFile this;
    ret this.

(** [run], after [await this.ready].  [turns] bounds the turns of the
    [while] loop, [fuel] the attempts of each governed request; the final
    object state is returned. *)
Fixpoint run (turns fuel : nat) (this : t) : M t :=
  if in_window this then
    match turns with
    | O => fun _ => Diverge
    | S turns' =>
        do this <- iteration fuel this;
        run turns' fuel this
    end
  else
    do _ <- console_log (fun w => LogFinished (now w));
    ret this.

End Scraper.

(** ** Vocabulary of the properties *)

(** The canonical two- and four-digit renderings. *)
Definition pad2 (n : Z) : string :=
  String (digit_char (n / 10)) (String (digit_char (n mod 10)) EmptyString).

Definition pad4 (n : Z) : string :=
  String (digit_char (n / 1000))
    (String (digit_char (n / 100 mod 10))
       (String (digit_char (n / 10 mod 10)) (String (digit_char (n mod 10)) EmptyString))).

(** An error that is neither a blocked repository nor an exhausted quota. *)
Definition transient (err : Err) : bool :=
  negb (Wrapper.blocked err) && Wrapper.quota_left err.

Definition never_limited {D} (r : Response D) : Prop :=
  match r with
  | Ok _ _ => True
  | Throw err => transient err = true
  end.

(** What a finished call has cost: the number of requests issued. *)
Definition attempts {A} (w : World) (r : Res A) : option nat :=
  match r with
  | Val _ w' | Exn _ w' => Some (calls w' - calls w)%nat
  | Diverge => None
  end.

(** A governor that answers the error [err] by waiting for the quota and
    calling itself again with the budget it was given. *)
Definition awaits_reset {D}
    (wrapper : nat -> (nat -> Response D) -> Z -> World -> Res D)
    (resumed : Err -> World -> World) (err : Err) : Prop :=
  forall fuel request retries w,
    request (calls w) = Throw err ->
    wrapper (S fuel) request retries w
    = wrapper fuel request retries (resumed err (called w)).

(** An effectful step that leaves the checkpoint file alone. *)
Definition keeps_disk {A} (w : World) (r : Res A) : Prop :=
  match r with
  | Val _ w' | Exn _ w' => disk w' = disk w
  | Diverge => True
  end.

(** The sum of one field over the repositories, as the specification words
    the aggregation. *)
Definition sum_of (field : RepoWithEvents.t -> Z) (repos : list RepoWithEvents.t) : Z :=
  fold_right Z.add 0 (map field repos).

Definition stars (r : RepoWithEvents.t) : Z :=
  nullish (Repo.stargazers_count (RepoWithEvents.repo r)) 0.

Definition watchers (r : RepoWithEvents.t) : Z :=
  nullish (Repo.watchers_count (RepoWithEvents.repo r)) 0.

Definition forks (r : RepoWithEvents.t) : Z :=
  nullish (Repo.forks_count (RepoWithEvents.repo r)) 0.

Definition open_issues (r : RepoWithEvents.t) : Z :=
  nullish (Repo.open_issues_count (RepoWithEvents.repo r)) 0.

(** The states a crawl goes through differ only in the cursor, the date and
    the accumulated organizations. *)
Definition same_crawl (a b : Scraper.t) : Prop :=
  Scraper.octokit b = Scraper.octokit a /\
  Scraper.baseQuery b = Scraper.baseQuery a /\
  Scraper.resultLocation b = Scraper.resultLocation a /\
  Scraper.totalCount b = Scraper.totalCount a /\
  Scraper.oldestOrgDate b = Scraper.oldestOrgDate a.

Definition has_login (L : string) (this : Scraper.t) : Prop :=
  exists o, In o (Scraper.organizations this) /\ Organization.login o = L.

(** A page without the candidates whose login is [L]. *)
Definition without (L : string) (items : list SearchItem.t) : list SearchItem.t :=
  List.filter (fun i => negb (String.eqb (SearchItem.login i) L)) items.

(** The remote API answers a profile request with the profile of the login
    that was asked for. *)
Definition faithful_profiles (o : Octokit) : Prop :=
  forall username n publicUser hdrs,
    get_user o username n = Ok publicUser hdrs ->
    PublicUser.login publicUser = username.

(** ** Sample data *)

Definition w0 : World := MkWorld 1600000000000 0 [] [].

Definition limited_headers : gmap string string :=
  {[ "x-ratelimit-remaining" := "0"; "x-ratelimit-reset" := "1600000060" ]}.

Definition err_limited : Err :=
  RequestError
    (Some {| data := Some {| message := Some "API rate limit exceeded"; block := None |};
             headers := limited_headers |}).

Definition err_blocked_limited : Err :=
  RequestError
    (Some {| data := Some {| message := Some "Repository access blocked";
                             block := Some {| reason := "tos" |} |};
             headers := limited_headers |}).

Definition err_network : Err := RequestError None.

Definition err_server : Err :=
  RequestError
    (Some {| data := Some {| message := Some "Server Error"; block := None |};
             headers := {[ "x-ratelimit-remaining" := "4999" ]} |}).

Definition sample_repos : list RepoWithEvents.t :=
  [ RepoWithEvents.Make (Repo.Make "a" (Some 3) (Some 1) (Some 0) (Some 4)) 10;
    RepoWithEvents.Make (Repo.Make "b" (Some 0) (Some 1) (Some 2) (Some 0)) 0;
    RepoWithEvents.Make (Repo.Make "c" (Some 5) (Some 1) (Some 0) (Some 0)) 7 ].

Definition profile (username : string) : PublicUser.t :=
  PublicUser.Make username 42 "https://avatars.example/u/42"
    "https://github.example/u" (Some "Acme") None None None None None None None
    2 0 0 "2019-10-01T08:00:00Z" "2020-01-01T08:00:00Z".

Definition acme : SearchItem.t := SearchItem.Make "acme".
Definition ghost : SearchItem.t := SearchItem.Make "ghost".
Definition umbrella : SearchItem.t := SearchItem.Make "umbrella".
Definition initech : SearchItem.t := SearchItem.Make "initech".

Definition repo_a : Repo.t := Repo.Make "a" (Some 3) (Some 1) None (Some 4).
Definition repo_b : Repo.t := Repo.Make "b" None (Some 1) (Some 2) None.
Definition repo_c : Repo.t := Repo.Make "c" (Some 5) None None None.

Definition push : Event.t := Event.Make "PushEvent".

(** A remote API with two pages of candidates in every window: [acme] owns a
    readable and a blocked repository, [initech] a readable one, [ghost] none,
    and the events of [umbrella]'s repository cannot be fetched. *)
Definition demo_octokit : Octokit := {|
  search_users q sort order page per_page n :=
    match page with
    | Some 1 => Ok (SearchData.Make [acme; ghost; umbrella] 3) ∅
    | Some 2 => Ok (SearchData.Make [acme; ghost] 3) ∅
    | _ => Ok (SearchData.Make [] 3) ∅
    end;
  get_user username n := Ok (profile username) ∅;
  list_repos username n :=
    if String.eqb username "acme" then Ok [repo_a; repo_b] ∅
    else if String.eqb username "umbrella" then Ok [repo_c] ∅
    else if String.eqb username "initech" then Ok [repo_a] ∅
    else Ok [] ∅;
  list_events owner repo n :=
    if String.eqb repo "b" then Throw err_blocked_limited
    else if String.eqb repo "c" then Throw err_network
    else Ok [push; push; push] ∅
|}.

Definition demo (page : Z) (orgs : list Organization.t) : Scraper.t :=
  Scraper.Make demo_octokit "type:org" "result.json" page "2020-03-04" orgs 3
    "2019-10-01T08:00:00Z".

Definition acme_org : Organization.t :=
  Scraper.make_org (profile "acme")
    [RepoWithEvents.Make repo_a 3; RepoWithEvents.Make repo_b 0].

Definition initech_org : Organization.t :=
  Scraper.make_org (profile "initech") [RepoWithEvents.Make repo_a 3].

(** ** Starting up: [readFile], the executor of [readyPromise], [setup] *)

Module Startup.

Import UtilsTime Wrapper Scraper.

(** [moment().format('YYYY-MM-DD')] (the local zone is taken to be UTC). *)
Definition today (w : World) : string :=
  format_civil (civil_from_days (now w / ms_per_day)).

Definition set_totalCount (v : Z) (this : t) : t :=
  Make (octokit this) (baseQuery this) (resultLocation this)
    (nextPageToScrape this) (date this) (organizations this) v
    (oldestOrgDate this).

Definition set_oldestOrgDate (v : string) (this : t) : t :=
  Make (octokit this) (baseQuery this) (resultLocation this)
    (nextPageToScrape this) (date this) (organizations this) (totalCount this) v.

(** [readFile]; [stored] is what [readJSONFile] gave, [None] when it threw. *)
Definition readFile (stored : option ScrapingResult.t) (this : t) (w : World) : t :=
  match stored with
  | Some result =>
      let this := set_nextPageToScrape (ScrapingResult.nextPageToScrape result) this in
      let this := set_date (ScrapingResult.searchingDate result) this in
      set_organizations (ScrapingResult.organizations result) this
  | None =>
      let this := set_nextPageToScrape 1 this in
      let this := set_date (today w) this in
      set_organizations [] this
  end.

(** The request for the profile of [oldestOrg]; evaluating [oldestOrg.login]
    inside the closure throws when the search found nobody. *)
Definition oldest_request (this : t) (items : list SearchItem.t)
    : nat -> Response PublicUser.t :=
  match items with
  | oldestOrg :: _ => get_user (octokit this) (SearchItem.login oldestOrg)
  | [] => fun _ => Throw TypeError
  end.

(** The executor of the [ready] promise.  [res(true)] is reached when it
    returns; when it throws, the promise stays pending and [run] is never
    resumed. *)
Definition readyPromise (fuel : nat) (this : t) : M t :=
  do found <- requestWrapper fuel
                (search_users (octokit this) (baseQuery this)
                   (Some "joined") (Some "asc") None None)
                retries_default;
  do publicUser <- requestWrapper fuel
                     (oldest_request this (SearchData.items found))
                     retries_default;
  let this := set_totalCount (SearchData.total_count found) this in
  let this := set_oldestOrgDate (PublicUser.created_at publicUser) this in
  ret this.

(** [setup] up to the moment [ready] resolves.  [totalCount] and
    [oldestOrgDate] are undefined until the executor sets them, and the object
    is not looked at before; they start here as 0 and the empty string. *)
Definition setup (fuel : nat) (octokit : Octokit) (baseQuery resultLocation : string)
    (stored : option ScrapingResult.t) : M t :=
  fun w =>
    let this := Make octokit baseQuery resultLocation 0 EmptyString [] 0 EmptyString in
    let this := readFile stored this w in
    readyPromise fuel this w.

End Startup.

(** ** [getFormattedTime] *)

(** [moment().format('HH:mm:ss.SS')]: the time of day of the clock, to the
    hundredth of a second (the local zone is taken to be UTC). *)
Definition getFormattedTime (w : World) : string :=
  let ms := now w mod ms_per_day in
  zeroFill (ms / 3600000) 2 +:+ ":" +:+ zeroFill (ms / 60000 mod 60) 2 +:+ ":"
  +:+ zeroFill (ms / 1000 mod 60) 2 +:+ "." +:+ zeroFill (ms mod 1000 / 10) 2.

(** ** Vocabulary of the further properties *)

(** Two worlds that differ in the console at most. *)
Definition same_but_console (a b : World) : Prop :=
  now a = now b /\ calls a = calls b /\ disk a = disk b.

(** Two outcomes that differ in the console at most. *)
Definition agree {A} (r1 r2 : Res A) : Prop :=
  match r1, r2 with
  | Val a w1, Val b w2 => a = b /\ same_but_console w1 w2
  | Exn e1 w1, Exn e2 w2 => e1 = e2 /\ same_but_console w1 w2
  | Diverge, Diverge => True
  | _, _ => False
  end.

(** An answer on which the two governors have nothing to differ about: no
    blocked repository, no successful answer with the quota exhausted. *)
Definition plain {D} (r : Response D) : Prop :=
  match r with
  | Ok _ headers => is_string (headers !! "x-ratelimit-remaining") "0" = false
  | Throw err => Wrapper.blocked err = false
  end.

(** A rate-limited answer that is not a blocked repository. *)
Definition limited (err : Err) : Prop :=
  Wrapper.blocked err = false /\ Wrapper.quota_left err = false.

(** What a step did to the world, whether it returned or threw: time went on,
    requests were issued, the console grew, [docs] were written. *)
Definition effect {A} (w : World) (r : Res A) (docs : list ScrapingResult.t) : Prop :=
  match r with
  | Val _ w' | Exn _ w' =>
      now w <= now w' /\ (calls w <= calls w')%nat /\
      (exists entries, console w' = console w ++ entries) /\
      disk w' = disk w ++ docs
  | Diverge => True
  end.

(** The non-empty prefixes of a list, shortest first. *)
Fixpoint prefixes {A} (l : list A) : list (list A) :=
  match l with
  | [] => []
  | x :: l' => [x] :: map (cons x) (prefixes l')
  end.

(** The checkpoint of [this] with the organizations [more] appended. *)
Definition checkpoint_with (this : Scraper.t) (more : list Organization.t)
    : ScrapingResult.t :=
  ScrapingResult.Make (Scraper.nextPageToScrape this) (Scraper.date this)
    (Scraper.organizations this ++ more).

(** A checkpoint that one turn of the loop entered in [this] may write. *)
Definition turn_checkpoint (this : Scraper.t) (doc : ScrapingResult.t) : Prop :=
  (exists more, ScrapingResult.organizations doc = Scraper.organizations this ++ more) /\
  ((ScrapingResult.searchingDate doc = Scraper.date this /\
    (ScrapingResult.nextPageToScrape doc = Scraper.nextPageToScrape this \/
     ScrapingResult.nextPageToScrape doc = Scraper.nextPageToScrape this + 1)) \/
   (ScrapingResult.searchingDate doc = UtilsTime.getPreviousWeek (Scraper.date this) /\
    ScrapingResult.nextPageToScrape doc = 1)).

Definition logins (this : Scraper.t) : list string :=
  map Organization.login (Scraper.organizations this).

(** The file holds the checkpoint of the object. *)
Definition in_sync (this : Scraper.t) (w : World) : Prop :=
  last (disk w) = Some (Scraper.checkpoint this).

(** A remote API whose search finds nobody, whatever is asked. *)
Definition finds_nobody (o : Octokit) : Prop :=
  forall q sort order page per_page n,
    exists total hdrs,
      search_users o q sort order page per_page n = Ok (SearchData.Make [] total) hdrs.

(** A remote API without organizations. *)
Definition empty_octokit : Octokit := {|
  search_users q sort order page per_page n := Ok (SearchData.Make [] 0) ∅;
  get_user username n := Throw (RequestError None);
  list_repos username n := Ok [] ∅;
  list_events owner repo n := Ok [] ∅
|}.

(** A remote API whose search always lists [acme] and [initech]. *)
Definition listed_octokit : Octokit := {|
  search_users q sort order page per_page n :=
    Ok (SearchData.Make [acme; initech] 2) ∅;
  get_user username n := Ok (profile username) ∅;
  list_repos := list_repos demo_octokit;
  list_events := list_events demo_octokit
|}.

(** Where what the governor hands over or throws comes from. *)
Definition provenance {D} (request : nat -> Response D) (r : Res D) : Prop :=
  match r with
  | Val d _ => exists n hdrs, request n = Ok d hdrs
  | Exn e _ =>
      exists n err,
        request n = Throw err /\
        if Wrapper.blocked err
        then e = TypeError \/
             exists b, e = RepoBlocked (reason b) /\
                       exists r d, response err = Some r /\ data r = Some d /\
                                   block d = Some b
        else e = err /\ Wrapper.quota_left err = true
  | Diverge => True
  end.

(** ** Two shapes the class [errors/RateLimitError] may have *)

(** Instances without a [response]. *)
Definition silent_class : option string -> option ErrorResponse :=
  fun _ => None.

(** Instances that expose the exhausted quota and the reset header the way
    the HTTP client's errors do. *)
Definition reporting_class (reset : option string) : option ErrorResponse :=
  Some {| data := None;
          headers :=
            match reset with
            | Some r => {[ "x-ratelimit-remaining" := "0"; "x-ratelimit-reset" := r ]}
            | None => {[ "x-ratelimit-remaining" := "0" ]}
            end |}.

(** Where what the other variant of the governor hands over or throws comes
    from: the last request issued.  A payload comes from an answer that does
    not report an exhausted quota; an error is the one the operation threw, or
    the [RateLimitError] built from an answer that reports it, and reads as
    quota left. *)
Definition strict_provenance {D} (cls : option string -> option ErrorResponse)
    (request : nat -> Response D) (w : World) (r : Res D) : Prop :=
  match r with
  | Val d w' =>
      (calls w < calls w')%nat /\
      exists hdrs,
        request (pred (calls w')) = Ok d hdrs /\
        hdrs !! "x-ratelimit-remaining" <> Some "0"
  | Exn e w' =>
      (calls w < calls w')%nat /\
      StrictWrapper.quota_left e = true /\
      (request (pred (calls w')) = Throw e \/
       exists d hdrs,
         request (pred (calls w')) = Ok d hdrs /\
         hdrs !! "x-ratelimit-remaining" = Some "0" /\
         e = StrictWrapper.new_RateLimitError cls (hdrs !! "x-ratelimit-reset"))
  | Diverge => True
  end.

(** A successful answer that reports an exhausted quota, with what the error
    built from it says when the [catch] block asks it for the quota. *)
Definition exhausted_success {D} (cls : option string -> option ErrorResponse)
    (r : Response D) (left : bool) : Prop :=
  exists d hdrs,
    r = Ok d hdrs /\
    hdrs !! "x-ratelimit-remaining" = Some "0" /\
    StrictWrapper.quota_left
      (StrictWrapper.new_RateLimitError cls (hdrs !! "x-ratelimit-reset")) = left.

(** * Properties *)

(** ** The calendar *)

Example ex_days_epoch : days_from_civil (Civil 1970 1 1) = 0.
Proof. reflexivity. Qed.

Example ex_civil_leap : civil_from_days 18321 = Civil 2020 2 29.
Proof. reflexivity. Qed.

Example ex_format : format_civil (Civil 2020 3 7) = "2020-03-07".
Proof. reflexivity. Qed.

Example ex_format_negative : format_civil (Civil (-1) 12 27) = "-0001-12-27".
Proof. reflexivity. Qed.

Example ex_parse : parse_civil "2021-03-05" = Some (Civil 2021 3 5).
Proof. reflexivity. Qed.

Example ex_parse_no_such_day : parse_civil "2021-02-30" = None.
Proof. reflexivity. Qed.

Example ex_previous_week : UtilsTime.getPreviousWeek "2020-03-04" = "2020-02-26".
Proof. reflexivity. Qed.

Ltac zdiv := Z.div_mod_to_equations; lia.

Lemma yoe_range doe : 0 <= doe <= 146096 -> 0 <= yoe_of_doe doe <= 399.
Proof. unfold yoe_of_doe. intros H. zdiv. Qed.

Lemma doy_range doe : 0 <= doe <= 146096 -> 0 <= doy_of_doe doe <= 365.
Proof. unfold doy_of_doe, yoe_of_doe. intros H. zdiv. Qed.

Lemma doy_leap doe :
  0 <= doe <= 146096 -> doy_of_doe doe = 365 ->
  (yoe_of_doe doe + 1) mod 4 = 0 /\
  ((yoe_of_doe doe + 1) mod 100 <> 0 \/ (yoe_of_doe doe + 1) mod 400 = 0).
Proof. unfold doy_of_doe, yoe_of_doe. intros H. zdiv. Qed.

Lemma mp_range doe : 0 <= doe <= 146096 -> 0 <= mp_of_doe doe <= 11.
Proof.
  intros H. pose proof (doy_range doe H). unfold mp_of_doe. zdiv.
Qed.

Lemma doe_range z : 0 <= z - z / 146097 * 146097 <= 146096.
Proof. zdiv. Qed.

Lemma is_leap_true y :
  y mod 4 = 0 -> (y mod 100 <> 0 \/ y mod 400 = 0) -> is_leap y = true.
Proof.
  intros H4 H. unfold is_leap. rewrite H4. simpl.
  destruct H as [H|H].
  - apply Z.eqb_neq in H. rewrite H. reflexivity.
  - rewrite H. apply orb_true_r.
Qed.

(** Day 365 of a March-based year is 29 February: it exists only when the
    calendar year that contains it is a leap year. *)
Lemma day_in_month doy leap :
  0 <= doy <= 365 -> (doy = 365 -> leap = true) ->
  let mp := (5 * doy + 2) / 153 in
  let m := if mp <? 10 then mp + 3 else mp - 9 in
  let d := doy - (153 * mp + 2) / 5 + 1 in
  1 <= m <= 12 /\ 1 <= d /\
  d <= (if m =? 2 then (if leap then 29 else 28)
        else if (m =? 4) || (m =? 6) || (m =? 9) || (m =? 11) then 30 else 31).
Proof.
  intros Hdoy Hleap mp m d.
  assert (Hmp : 0 <= mp <= 11) by (subst mp; zdiv).
  assert (Hcases : mp = 0 \/ mp = 1 \/ mp = 2 \/ mp = 3 \/ mp = 4 \/ mp = 5 \/
                   mp = 6 \/ mp = 7 \/ mp = 8 \/ mp = 9 \/ mp = 10 \/ mp = 11) by lia.
  assert (Hd : mp = (5 * doy + 2) / 153) by reflexivity.
  clearbody mp.
  destruct leap.
  - repeat (destruct Hcases as [-> | Hcases]); try subst mp;
      subst m d; simpl; zdiv.
  - assert (doy <> 365) by (intros E; specialize (Hleap E); discriminate).
    repeat (destruct Hcases as [-> | Hcases]); try subst mp;
      subst m d; simpl; zdiv.
Qed.

Theorem civil_from_days_valid n : valid_civil (civil_from_days n) = true.
Proof.
  unfold civil_from_days.
  set (z := n + 719468). set (era := z / 146097).
  set (doe := z - era * 146097).
  assert (Hdoe : 0 <= doe <= 146096) by (subst doe era; apply doe_range).
  pose proof (doy_range doe Hdoe) as Hdoy.
  set (mp := mp_of_doe doe).
  set (m := if mp <? 10 then mp + 3 else mp - 9).
  set (y := if m <=? 2 then yoe_of_doe doe + era * 400 + 1 else yoe_of_doe doe + era * 400).
  assert (Hleap : doy_of_doe doe = 365 -> is_leap (yoe_of_doe doe + era * 400 + 1) = true).
  { intros E. destruct (doy_leap doe Hdoe E) as [H4 H100].
    apply is_leap_true; [zdiv|].
    destruct H100 as [H|H]; [left|right]; zdiv. }
  pose proof (day_in_month (doy_of_doe doe)
                (is_leap (yoe_of_doe doe + era * 400 + 1)) Hdoy Hleap) as Hm.
  cbv zeta in Hm. fold (mp_of_doe doe) in Hm. fold mp in Hm. fold m in Hm.
  destruct Hm as (Hm1 & Hd1 & Hd2).
  unfold valid_civil, days_in_month. simpl.
  assert (Hy : (m =? 2) = true -> y = yoe_of_doe doe + era * 400 + 1).
  { intros E. apply Z.eqb_eq in E. subst y. rewrite E. reflexivity. }
  destruct (m =? 2) eqn:E2.
  - rewrite (Hy eq_refl).
    repeat (apply andb_true_iff; split); apply Z.leb_le; lia.
  - repeat (apply andb_true_iff; split); apply Z.leb_le; lia.
Qed.

Theorem days_from_civil_from_days n : days_from_civil (civil_from_days n) = n.
Proof.
  unfold civil_from_days.
  set (z := n + 719468). set (era := z / 146097).
  set (doe := z - era * 146097).
  assert (Hdoe : 0 <= doe <= 146096) by (subst doe era; apply doe_range).
  pose proof (yoe_range doe Hdoe) as Hyoe.
  pose proof (mp_range doe Hdoe) as Hmp.
  unfold days_from_civil. simpl.
  set (mp := mp_of_doe doe) in *.
  set (yoe := yoe_of_doe doe) in *.
  set (m := if mp <? 10 then mp + 3 else mp - 9).
  assert (Hy : (if m <=? 2 then (if m <=? 2 then yoe + era * 400 + 1 else yoe + era * 400) - 1
                else (if m <=? 2 then yoe + era * 400 + 1 else yoe + era * 400))
               = yoe + era * 400) by (destruct (m <=? 2); lia).
  rewrite Hy.
  assert (Hmp' : (if m >? 2 then m - 3 else m + 9) = mp).
  { subst m. destruct (mp <? 10) eqn:E.
    - apply Z.ltb_lt in E. destruct (mp + 3 >? 2) eqn:E'; lia.
    - apply Z.ltb_ge in E. destruct (mp - 9 >? 2) eqn:E'; lia. }
  rewrite Hmp'.
  assert (Hera : (yoe + era * 400) / 400 = era) by zdiv.
  rewrite Hera.
  replace (yoe + era * 400 - era * 400) with yoe by lia.
  unfold doy_of_doe. fold yoe. subst doe z. lia.
Qed.

Lemma digit_val_char d : 0 <= d <= 9 -> digit_val (digit_char d) = Some d.
Proof.
  intros H.
  assert (Hc : d = 0 \/ d = 1 \/ d = 2 \/ d = 3 \/ d = 4 \/ d = 5 \/ d = 6 \/
               d = 7 \/ d = 8 \/ d = 9) by lia.
  repeat (destruct Hc as [-> | Hc]); try subst d; reflexivity.
Qed.

Lemma string_length_app (s1 s2 : string) :
  String.length (s1 +:+ s2) = (String.length s1 + String.length s2)%nat.
Proof. induction s1 as [|c s1 IH]; simpl; [reflexivity | now rewrite IH]. Qed.

Lemma length_zeros k : String.length (zeros k) = k.
Proof. induction k as [|k IH]; simpl; [reflexivity | now rewrite IH]. Qed.

Lemma dec_aux_length fuel : forall n acc,
  (String.length acc + 1 <= String.length (dec_aux (S fuel) n acc))%nat.
Proof.
  induction fuel as [|f IH]; intros n acc.
  - simpl. destruct (n <? 10); simpl; lia.
  - change (dec_aux (S (S f)) n acc)
      with (let acc' := String (digit_char (n mod 10)) acc in
            if n <? 10 then acc' else dec_aux (S f) (n / 10) acc').
    cbv zeta. destruct (n <? 10).
    + simpl. lia.
    + specialize (IH (n / 10) (String (digit_char (n mod 10)) acc)). simpl in *. lia.
Qed.

Lemma dec_fuel n k :
  2 ^ Z.of_nat k <= n -> exists f, S (Z.to_nat (Z.log2 n)) = (S k + f)%nat.
Proof.
  intros H. exists (Z.to_nat (Z.log2 n) - k)%nat.
  assert (Z.of_nat k <= Z.log2 n).
  { rewrite <- (Z.log2_pow2 (Z.of_nat k)) by lia. apply Z.log2_le_mono. exact H. }
  lia.
Qed.

Lemma dec_1 n : 0 <= n < 10 -> dec n = String (digit_char n) EmptyString.
Proof.
  intros H. unfold dec. simpl.
  destruct (n <? 10) eqn:E; [|apply Z.ltb_ge in E; lia].
  rewrite Z.mod_small by lia. reflexivity.
Qed.

Lemma dec_aux_lt fuel n acc :
  n < 10 -> dec_aux (S fuel) n acc = String (digit_char (n mod 10)) acc.
Proof. intros H. simpl. destruct (n <? 10) eqn:E; [reflexivity|apply Z.ltb_ge in E; lia]. Qed.

Lemma dec_aux_ge fuel n acc :
  10 <= n -> dec_aux (S fuel) n acc = dec_aux fuel (n / 10) (String (digit_char (n mod 10)) acc).
Proof. intros H. simpl. destruct (n <? 10) eqn:E; [apply Z.ltb_lt in E; lia|reflexivity]. Qed.

Lemma dec_2 n :
  10 <= n < 100 ->
  dec n = String (digit_char (n / 10)) (String (digit_char (n mod 10)) EmptyString).
Proof.
  intros H. unfold dec.
  destruct (dec_fuel n 1) as [f ->]; [change (2 <= n); lia|].
  simpl plus. rewrite dec_aux_ge by lia. rewrite dec_aux_lt by zdiv.
  rewrite (Z.mod_small (n / 10)) by zdiv. reflexivity.
Qed.

Lemma dec_3 n :
  100 <= n < 1000 ->
  dec n = String (digit_char (n / 100))
            (String (digit_char (n / 10 mod 10)) (String (digit_char (n mod 10)) EmptyString)).
Proof.
  intros H. unfold dec.
  destruct (dec_fuel n 2) as [f ->]; [change (4 <= n); lia|].
  simpl plus. rewrite dec_aux_ge by lia. rewrite dec_aux_ge by zdiv.
  rewrite dec_aux_lt by zdiv.
  replace (n / 10 / 10) with (n / 100) by zdiv.
  rewrite (Z.mod_small (n / 100)) by zdiv. reflexivity.
Qed.

Lemma dec_4 n :
  1000 <= n < 10000 ->
  dec n = String (digit_char (n / 1000))
            (String (digit_char (n / 100 mod 10))
               (String (digit_char (n / 10 mod 10)) (String (digit_char (n mod 10)) EmptyString))).
Proof.
  intros H. unfold dec.
  destruct (dec_fuel n 3) as [f ->]; [change (8 <= n); lia|].
  simpl plus. rewrite dec_aux_ge by lia. rewrite dec_aux_ge by zdiv.
  rewrite dec_aux_ge by zdiv. rewrite dec_aux_lt by zdiv.
  replace (n / 10 / 10) with (n / 100) by zdiv.
  replace (n / 100 / 10) with (n / 1000) by zdiv.
  rewrite (Z.mod_small (n / 1000)) by zdiv. reflexivity.
Qed.

Lemma dec_long n : 10000 <= n -> (5 <= String.length (dec n))%nat.
Proof.
  intros H. unfold dec.
  destruct (dec_fuel n 4) as [f ->]; [change (16 <= n); lia|].
  simpl plus. rewrite dec_aux_ge by lia. rewrite dec_aux_ge by zdiv.
  rewrite dec_aux_ge by zdiv. rewrite dec_aux_ge by zdiv.
  match goal with |- (_ <= String.length (dec_aux (S f) ?m ?acc))%nat =>
    pose proof (dec_aux_length f m acc) as Hl end.
  cbn [String.length] in Hl. lia.
Qed.

Lemma dec_nonempty n : (1 <= String.length (dec n))%nat.
Proof. unfold dec. pose proof (dec_aux_length (Z.to_nat (Z.log2 n)) n EmptyString) as Hl. cbn [String.length] in Hl. lia. Qed.

Lemma zeroFill_2 n : 0 <= n <= 99 -> zeroFill n 2 = pad2 n.
Proof.
  intros H. unfold zeroFill, pad2.
  destruct (n <? 0) eqn:E; [apply Z.ltb_lt in E; lia|].
  rewrite Z.abs_eq by lia.
  destruct (Z_lt_dec n 10).
  - rewrite dec_1 by lia. simpl.
    rewrite (Z.div_small n 10), (Z.mod_small n 10) by lia. reflexivity.
  - rewrite dec_2 by lia. reflexivity.
Qed.

Lemma zeroFill_4 n : 0 <= n <= 9999 -> zeroFill n 4 = pad4 n.
Proof.
  intros H. unfold zeroFill, pad4.
  destruct (n <? 0) eqn:E; [apply Z.ltb_lt in E; lia|].
  rewrite Z.abs_eq by lia.
  destruct (Z_lt_dec n 10); [|destruct (Z_lt_dec n 100); [|destruct (Z_lt_dec n 1000)]].
  - rewrite dec_1 by lia. simpl.
    replace (n / 1000) with 0 by zdiv. replace (n / 100 mod 10) with 0 by zdiv.
    replace (n / 10 mod 10) with 0 by zdiv. rewrite (Z.mod_small n 10) by lia.
    reflexivity.
  - rewrite dec_2 by lia. simpl.
    replace (n / 1000) with 0 by zdiv. replace (n / 100 mod 10) with 0 by zdiv.
    replace (n / 10 mod 10) with (n / 10) by zdiv. reflexivity.
  - rewrite dec_3 by lia. simpl.
    replace (n / 1000) with 0 by zdiv. replace (n / 100 mod 10) with (n / 100) by zdiv.
    reflexivity.
  - rewrite dec_4 by lia. reflexivity.
Qed.

Lemma zeroFill_length_out n :
  n < 0 \/ 10000 <= n -> (5 <= String.length (zeroFill n 4))%nat.
Proof.
  intros H. unfold zeroFill. rewrite !string_length_app, length_zeros.
  destruct (n <? 0) eqn:E.
  - pose proof (dec_nonempty (Z.abs n)). simpl. lia.
  - apply Z.ltb_ge in E. rewrite Z.abs_eq by lia.
    pose proof (dec_long n ltac:(lia)). lia.
Qed.

Lemma zeroFill_length_ge n k : (k <= String.length (zeroFill n k))%nat.
Proof. unfold zeroFill. rewrite !string_length_app, length_zeros. lia. Qed.

Lemma parse_civil_length s c : parse_civil s = Some c -> String.length s = 10%nat.
Proof.
  unfold parse_civil. intros H.
  assert (Hl : String.length s = List.length (list_ascii_of_string s)).
  { clear. induction s as [|a s IH]; simpl; congruence. }
  rewrite Hl.
  destruct (list_ascii_of_string s)
    as [|a0 [|a1 [|a2 [|a3 [|a4 [|a5 [|a6 [|a7 [|a8 [|a9 [|a10 l]]]]]]]]]]];
    try discriminate H.
  reflexivity.
Qed.

Lemma format_canonical c :
  0 <= year c <= 9999 -> 0 <= month c <= 99 -> 0 <= day c <= 99 ->
  format_civil c = pad4 (year c) +:+ "-" +:+ pad2 (month c) +:+ "-" +:+ pad2 (day c).
Proof.
  intros Hy Hm Hd. unfold format_civil.
  now rewrite zeroFill_4, !zeroFill_2 by assumption.
Qed.

Lemma num2_pad2 n :
  0 <= n <= 99 -> num2 (digit_char (n / 10)) (digit_char (n mod 10)) = Some n.
Proof.
  intros H. unfold num2. rewrite !digit_val_char by zdiv. f_equal. zdiv.
Qed.

Lemma parse_canonical c :
  0 <= year c <= 9999 -> valid_civil c = true ->
  parse_civil (pad4 (year c) +:+ "-" +:+ pad2 (month c) +:+ "-" +:+ pad2 (day c)) = Some c.
Proof.
  intros Hy Hv. destruct c as [y m d]. simpl in *.
  assert (Hmd : 1 <= m <= 12 /\ 1 <= d <= 31).
  { unfold valid_civil, days_in_month in Hv. simpl in Hv.
    repeat (apply andb_true_iff in Hv as [Hv ?]).
    repeat match goal with H : (_ <=? _) = true |- _ => apply Z.leb_le in H end.
    destruct (m =? 2); [destruct (is_leap y)|destruct (_ || _)]; lia. }
  unfold parse_civil, pad4, pad2.
  lazy beta iota zeta delta [String.append list_ascii_of_string].
  change (is_hyphen "-"%char) with true. cbn [andb].
  unfold num4.
  replace (num2 (digit_char (y / 1000)) (digit_char (y / 100 mod 10))) with (Some (y / 100)).
  2:{ unfold num2. rewrite !digit_val_char by zdiv. f_equal. zdiv. }
  replace (num2 (digit_char (y / 10 mod 10)) (digit_char (y mod 10))) with (Some (y mod 100)).
  2:{ unfold num2. rewrite !digit_val_char by zdiv. f_equal. zdiv. }
  rewrite !num2_pad2 by lia.
  replace (100 * (y / 100) + y mod 100) with y by zdiv.
  rewrite Hv. reflexivity.
Qed.

Theorem parse_format c :
  0 <= year c <= 9999 -> valid_civil c = true ->
  parse_civil (format_civil c) = Some c.
Proof.
  intros Hy Hv.
  assert (Hmd : 1 <= month c <= 12 /\ 1 <= day c <= 31).
  { destruct c as [y m d]. unfold valid_civil, days_in_month in Hv. simpl in *.
    repeat (apply andb_true_iff in Hv as [Hv ?]).
    repeat match goal with H : (_ <=? _) = true |- _ => apply Z.leb_le in H end.
    destruct (m =? 2); [destruct (is_leap y)|destruct (_ || _)]; lia. }
  rewrite format_canonical by lia. now apply parse_canonical.
Qed.

Theorem parse_format_inv c c' :
  valid_civil c = true -> parse_civil (format_civil c) = Some c' -> c' = c.
Proof.
  intros Hv Hp.
  destruct (Z_lt_dec (year c) 0) as [Hneg|Hnn];
    [|destruct (Z_le_dec (year c) 9999) as [Hle|Hgt]].
  - apply parse_civil_length in Hp. unfold format_civil in Hp.
    rewrite !string_length_app in Hp.
    pose proof (zeroFill_length_out (year c) ltac:(lia)).
    pose proof (zeroFill_length_ge (month c) 2).
    pose proof (zeroFill_length_ge (day c) 2).
    cbn [String.length] in Hp. lia.
  - rewrite parse_format in Hp by (lia || assumption). congruence.
  - apply parse_civil_length in Hp. unfold format_civil in Hp.
    rewrite !string_length_app in Hp.
    pose proof (zeroFill_length_out (year c) ltac:(lia)).
    pose proof (zeroFill_length_ge (month c) 2).
    pose proof (zeroFill_length_ge (day c) 2).
    cbn [String.length] in Hp. lia.
Qed.

(** ** The request governor *)

Example ex_wait_then_success :
  Wrapper.requestWrapper 3
    (fun n => match n with O => Throw err_limited | _ => Ok 7 ∅ end) 0 w0
  = Val 7 (MkWorld 1600000061000 2
             [LogRateLimit 1600000000000 (Some 1600000061000);
              LogResumed 1600000061000] []).
Proof. vm_compute. reflexivity. Qed.

Example ex_network_error_twice :
  Wrapper.requestWrapper 9 (fun n => Throw err_network) Wrapper.retries_default w0
  = @Exn nat err_network (MkWorld 1600000000000 2 [LogError err_network] []).
Proof. vm_compute. reflexivity. Qed.

Example ex_strict_success_thrown :
  StrictWrapper.requestWrapper silent_class 9 (fun n => Ok 7 limited_headers)
    StrictWrapper.retries_default w0
  = Exn (RateLimitError (Some "1600000060") None)
      (MkWorld 1600000000000 2
         [LogError (RateLimitError (Some "1600000060") None);
          LogError (RateLimitError (Some "1600000060") None)] []).
Proof. vm_compute. reflexivity. Qed.

Example ex_strict_success_awaited :
  StrictWrapper.requestWrapper reporting_class 9
    (fun n => match n with O => Ok 7 limited_headers | _ => Ok 8 ∅ end) 0 w0
  = Val 8 (MkWorld 1600000061000 2
             [LogRateLimit 1600000000000 (Some 1600000061000)] []).
Proof. vm_compute. reflexivity. Qed.

Lemma is_string_true o s : is_string o s = true <-> o = Some s.
Proof.
  destruct o as [s'|]; simpl; [|split; discriminate].
  rewrite String.eqb_eq. split; congruence.
Qed.

Lemma wrapper_unfold {D} fuel (request : nat -> Response D) retries w :
  Wrapper.requestWrapper (S fuel) request retries w =
  match request (calls w) with
  | Ok data _ => Val data (called w)
  | Throw err =>
      if Wrapper.blocked err then
        match response err with
        | Some {| data := Some {| block := Some b |} |} =>
            Exn (RepoBlocked (reason b)) (called w)
        | _ => Exn TypeError (called w)
        end
      else if Wrapper.quota_left err then
        if negb (retries =? 0)
        then Wrapper.requestWrapper fuel request (retries - 1) (called w)
        else Exn err (log (LogError err) (called w))
      else Wrapper.requestWrapper fuel request retries (Wrapper.await_reset err (called w))
  end.
Proof. reflexivity. Qed.

Lemma strict_unfold {D} cls fuel (request : nat -> Response D) retries w :
  StrictWrapper.requestWrapper cls (S fuel) request retries w =
  match request (calls w) with
  | Ok data headers =>
      if is_string (headers !! "x-ratelimit-remaining") "0" then
        StrictWrapper.handler (StrictWrapper.requestWrapper cls fuel request)
          (StrictWrapper.new_RateLimitError cls (headers !! "x-ratelimit-reset")) retries
          (called w)
      else Val data (called w)
  | Throw err =>
      StrictWrapper.handler (StrictWrapper.requestWrapper cls fuel request) err retries (called w)
  end.
Proof. reflexivity. Qed.

(** The clock after the wait: the reset instant plus one second, unless that
    instant has passed already. *)
Lemma await_reset_now err w seconds :
  Number (error_header "x-ratelimit-reset" err) = Some seconds ->
  now (Wrapper.await_reset err w) = Z.max (now w) ((seconds + 1) * 1000) /\
  now (StrictWrapper.await_reset err w) = Z.max (now w) ((seconds + 1) * 1000).
Proof.
  intros H. unfold Wrapper.await_reset, StrictWrapper.await_reset, resetMoment.
  rewrite H. simpl. lia.
Qed.

Lemma await_reset_frame err w :
  calls (Wrapper.await_reset err w) = calls w /\
  disk (Wrapper.await_reset err w) = disk w /\
  calls (StrictWrapper.await_reset err w) = calls w /\
  disk (StrictWrapper.await_reset err w) = disk w.
Proof.
  unfold Wrapper.await_reset, StrictWrapper.await_reset.
  destruct (resetMoment err); simpl; auto.
Qed.

(** C5: an error whose payload carries the message 'Repository access
    blocked' makes the governor fail at once with [RepoBlocked] and the block
    reason of the payload: one request has been issued, nothing was waited for
    or logged, and neither the rate-limit headers (whatever they hold) nor the
    retry budget (whatever it is) are looked at. *)
Theorem blocked_fails_at_once {D} (request : nat -> Response D) fuel retries w
    err r d b :
  request (calls w) = Throw err ->
  response err = Some r -> data r = Some d ->
  message d = Some "Repository access blocked" -> block d = Some b ->
  Wrapper.requestWrapper (S fuel) request retries w
  = Exn (RepoBlocked (reason b)) (called w).
Proof.
  intros Hreq Hr Hd Hm Hb. rewrite wrapper_unfold, Hreq.
  assert (Hblocked : Wrapper.blocked err = true).
  { unfold Wrapper.blocked, error_message. rewrite Hr, Hd, Hm. reflexivity. }
  rewrite Hblocked, Hr. destruct r as [dd hh]. simpl in Hd. subst dd.
  destruct d as [mm bb]. simpl in Hb. subst bb. reflexivity.
Qed.

(** The blocked answer wins even when its headers report an exhausted
    quota. *)
Lemma blocked_fails_at_once_witness :
  error_header "x-ratelimit-remaining" err_blocked_limited = Some "0" /\
  Wrapper.requestWrapper 3 (fun _ => @Throw nat err_blocked_limited) 1 w0
  = Exn (RepoBlocked "tos") (called w0).
Proof.
  split; [reflexivity|].
  exact (blocked_fails_at_once (fun _ => Throw err_blocked_limited) 2 1 w0
           err_blocked_limited _ _ {| reason := "tos" |}
           eq_refl eq_refl eq_refl eq_refl eq_refl).
Defined.

(** Any number of rate-limited answers in a row leaves the budget as it
    was. *)
Lemma waits_keep_budget {D} (request : nat -> Response D) (n : nat) :
  forall fuel retries w,
    (forall i, (i < n)%nat -> exists err,
        request (calls w + i)%nat = Throw err /\
        Wrapper.blocked err = false /\ Wrapper.quota_left err = false) ->
    exists w',
      calls w' = (calls w + n)%nat /\ disk w' = disk w /\ now w <= now w' /\
      Wrapper.requestWrapper (n + fuel) request retries w
      = Wrapper.requestWrapper fuel request retries w'.
Proof.
  induction n as [|n IH]; intros fuel retries w Hall.
  - exists w. repeat split; [lia|lia].
  - destruct (Hall 0%nat ltac:(lia)) as (err & Hreq & Hb & Hq).
    rewrite Nat.add_0_r in Hreq.
    destruct (IH fuel retries (Wrapper.await_reset err (called w))) as (w' & Hc & Hd & Hn & Hrun).
    { intros i Hi. destruct (await_reset_frame err (called w)) as (-> & _).
      simpl. replace (S (calls w + i)) with (calls w + S i)%nat by lia.
      apply Hall. lia. }
    exists w'.
    destruct (await_reset_frame err (called w)) as (Hc' & Hd' & _).
    rewrite Hc' in Hc. rewrite Hd' in Hd. simpl in Hc, Hd.
    split; [lia|]. split; [exact Hd|]. split.
    + assert (now w <= now (Wrapper.await_reset err (called w))).
      { unfold Wrapper.await_reset. destruct (resetMoment err); simpl; lia. }
      lia.
    + change (S n + fuel)%nat with (S (n + fuel)).
      rewrite wrapper_unfold, Hreq, Hb, Hq. exact Hrun.
Qed.

(** C4 as stated does not hold of the governor that knows blocked
    repositories: an error that reports an exhausted quota and carries the
    blocked message is thrown as [RepoBlocked] at once; the governor neither
    waits nor calls the operation again. *)
Lemma exhausted_quota_on_blocked_repository_not_awaited :
  let request := fun n => match n with O => Throw err_blocked_limited | _ => Ok 7 ∅ end in
  error_header "x-ratelimit-remaining" err_blocked_limited = Some "0" /\
  Wrapper.requestWrapper 2 request 1 w0 = Exn (RepoBlocked "tos") (called w0) /\
  Wrapper.requestWrapper 1 request 1
    (Wrapper.await_reset err_blocked_limited (called w0))
  = Val 7 (MkWorld 1600000061000 2
             [LogRateLimit 1600000000000 (Some 1600000061000);
              LogResumed 1600000061000] []) /\
  ~ awaits_reset (@Wrapper.requestWrapper Z) Wrapper.await_reset err_blocked_limited.
Proof.
  intros request. split; [reflexivity|]. split; [reflexivity|]. split; [reflexivity|].
  intros H. specialize (H 1%nat request 1 w0 eq_refl).
  vm_compute in H. discriminate H.
Qed.

(** C4, amended: an error whose headers report zero remaining quota and
    which, for the governor that knows blocked repositories, does not carry
    the blocked message, makes the governor wait and call itself again on the
    same operation with the retry budget unchanged; after the wait the clock
    stands at the reset instant of the header (epoch seconds) plus one second,
    or where it stood if that instant had passed.  The other variant does so
    for every such error.  However many such answers come in a row, the call
    goes on with the budget it started with. *)
Theorem exhausted_quota_awaits_reset {D} (cls : option string -> option ErrorResponse)
    (request : nat -> Response D) fuel retries w err seconds :
  request (calls w) = Throw err ->
  error_header "x-ratelimit-remaining" err = Some "0" ->
  Number (error_header "x-ratelimit-reset" err) = Some seconds ->
  (Wrapper.blocked err = false ->
   Wrapper.requestWrapper (S fuel) request retries w
   = Wrapper.requestWrapper fuel request retries (Wrapper.await_reset err (called w))) /\
  StrictWrapper.requestWrapper cls (S fuel) request retries w
  = StrictWrapper.requestWrapper cls fuel request retries
      (StrictWrapper.await_reset err (called w)) /\
  now (Wrapper.await_reset err (called w)) = Z.max (now w) ((seconds + 1) * 1000) /\
  now (StrictWrapper.await_reset err (called w)) = Z.max (now w) ((seconds + 1) * 1000) /\
  (forall n : nat,
      (forall i, (i < n)%nat -> exists err',
          request (calls w + i)%nat = Throw err' /\
          Wrapper.blocked err' = false /\ Wrapper.quota_left err' = false) ->
      exists w',
        calls w' = (calls w + n)%nat /\ disk w' = disk w /\ now w <= now w' /\
        Wrapper.requestWrapper (n + fuel) request retries w
        = Wrapper.requestWrapper fuel request retries w').
Proof.
  intros Hreq Hrem Hreset.
  assert (Hq : is_string (error_header "x-ratelimit-remaining" err) "0" = true)
    by (now apply is_string_true).
  split; [|split; [|split; [|split]]].
  - intros Hnb. rewrite wrapper_unfold, Hreq, Hnb.
    unfold Wrapper.quota_left. rewrite Hq. reflexivity.
  - rewrite strict_unfold, Hreq. unfold StrictWrapper.handler, StrictWrapper.quota_left.
    rewrite Hq. reflexivity.
  - exact (proj1 (await_reset_now err (called w) seconds Hreset)).
  - exact (proj2 (await_reset_now err (called w) seconds Hreset)).
  - intros n. apply waits_keep_budget.
Qed.

(** With a budget of zero, a rate-limited call still waits and goes on. *)
Lemma exhausted_quota_awaits_reset_witness :
  Wrapper.requestWrapper 2 (fun _ => @Throw Z err_limited) 0 w0
  = Wrapper.requestWrapper 1 (fun _ => @Throw Z err_limited) 0
      (Wrapper.await_reset err_limited (called w0)) /\
  now (Wrapper.await_reset err_limited (called w0)) = 1600000061000.
Proof.
  pose proof (exhausted_quota_awaits_reset silent_class (fun _ => @Throw Z err_limited) 1 0 w0
                err_limited 1600000060 eq_refl eq_refl eq_refl) as (H1 & _ & H2 & _).
  split; [exact (H1 eq_refl)|exact H2].
Defined.

Lemma transient_inv err :
  transient err = true -> Wrapper.blocked err = false /\ Wrapper.quota_left err = true.
Proof.
  unfold transient. intros H. apply andb_true_iff in H as [H1 H2].
  apply negb_true_iff in H1. auto.
Qed.

Lemma transient_step {D} (request : nat -> Response D) fuel retries w err :
  request (calls w) = Throw err -> transient err = true ->
  Wrapper.requestWrapper (S fuel) request retries w =
  if negb (retries =? 0)
  then Wrapper.requestWrapper fuel request (retries - 1) (called w)
  else Exn err (log (LogError err) (called w)).
Proof.
  intros Hreq Ht. apply transient_inv in Ht as [Hb Hq].
  now rewrite wrapper_unfold, Hreq, Hb, Hq.
Qed.

(** With every attempt failing for a transient reason, a budget of [n] buys
    [n + 1] attempts, and the error of the last one is the one that
    surfaces. *)
Lemma budget_spent {D} (request : nat -> Response D) (n : nat) :
  forall fuel w,
    (forall i, (i <= n)%nat -> exists err,
        request (calls w + i)%nat = Throw err /\ transient err = true) ->
    exists err,
      request (calls w + n)%nat = Throw err /\
      Wrapper.requestWrapper (S n + fuel) request (Z.of_nat n) w
      = Exn err (log (LogError err)
                   (MkWorld (now w) (calls w + n + 1) (console w) (disk w))).
Proof.
  induction n as [|n IH]; intros fuel w Hall.
  - destruct (Hall 0%nat (le_n _)) as (err & Hreq & Ht).
    exists err. split; [exact Hreq|].
    rewrite Nat.add_0_r in Hreq.
    change (S 0 + fuel)%nat with (S fuel).
    rewrite (transient_step _ _ _ _ err Hreq Ht). simpl.
    unfold called. repeat f_equal. lia.
  - destruct (Hall 0%nat ltac:(lia)) as (err0 & Hreq0 & Ht0).
    rewrite Nat.add_0_r in Hreq0.
    change (S (S n) + fuel)%nat with (S (S n + fuel)).
    rewrite (transient_step _ _ _ _ err0 Hreq0 Ht0).
    replace (negb (Z.of_nat (S n) =? 0)) with true
      by (symmetry; apply negb_true_iff, Z.eqb_neq; lia).
    replace (Z.of_nat (S n) - 1) with (Z.of_nat n) by lia.
    destruct (IH fuel (called w)) as (err & Hreq & Hrun).
    { intros i Hi. simpl. replace (S (calls w + i)) with (calls w + S i)%nat by lia.
      apply Hall. lia. }
    exists err. split.
    + simpl in Hreq. replace (calls w + S n)%nat with (S (calls w + n)) by lia.
      exact Hreq.
    + rewrite Hrun. simpl. repeat f_equal. lia.
Qed.

(** C6: when the operation fails with an error that is neither a blocked
    repository nor an exhausted quota, the governor calls itself again with
    the budget decremented if the budget is positive, and throws that very
    error if the budget is zero; with the default budget of 1, an operation
    that never meets a block or the rate limit is attempted at most twice, and
    in general a budget of [n] buys [n + 1] attempts when all of them fail in
    this way. *)
Theorem transient_error_spends_budget {D} (request : nat -> Response D) fuel
    retries w err :
  request (calls w) = Throw err -> transient err = true ->
  (0 < retries ->
   Wrapper.requestWrapper (S fuel) request retries w
   = Wrapper.requestWrapper fuel request (retries - 1) (called w)) /\
  (retries = 0 ->
   Wrapper.requestWrapper (S fuel) request retries w
   = Exn err (log (LogError err) (called w))) /\
  ((forall n, never_limited (request n)) ->
   exists k, attempts w (Wrapper.requestWrapper (S (S fuel)) request
                           Wrapper.retries_default w) = Some k /\ (k <= 2)%nat) /\
  (forall n : nat,
      (forall i, (i <= n)%nat -> exists err',
          request (calls w + i)%nat = Throw err' /\ transient err' = true) ->
      exists last,
        request (calls w + n)%nat = Throw last /\
        Wrapper.requestWrapper (S n + fuel) request (Z.of_nat n) w
        = Exn last (log (LogError last)
                      (MkWorld (now w) (calls w + n + 1) (console w) (disk w)))).
Proof.
  intros Hreq Ht. split; [|split; [|split]].
  - intros Hpos. rewrite (transient_step _ _ _ _ err Hreq Ht).
    replace (negb (retries =? 0)) with true
      by (symmetry; apply negb_true_iff, Z.eqb_neq; lia).
    reflexivity.
  - intros ->. now rewrite (transient_step _ _ _ _ err Hreq Ht).
  - intros Hall.
    rewrite (transient_step _ _ _ _ err Hreq Ht). simpl negb. cbv iota.
    change (Wrapper.retries_default - 1) with 0.
    rewrite wrapper_unfold.
    pose proof (Hall (calls (called w))) as Hsecond.
    destruct (request (calls (called w))) as [data hdrs|err'].
    + exists 2%nat. simpl. split; [f_equal; lia|lia].
    + simpl in Hsecond. apply transient_inv in Hsecond as [Hb Hq].
      rewrite Hb, Hq. simpl. exists 2%nat. split; [f_equal; lia|lia].
  - intros n. apply budget_spent.
Qed.

Lemma transient_error_spends_budget_witness :
  Wrapper.requestWrapper 3 (fun _ => @Throw Z err_server) 1 w0
  = Wrapper.requestWrapper 2 (fun _ => @Throw Z err_server) 0 (called w0) /\
  Wrapper.requestWrapper 3 (fun _ => @Throw Z err_server) 0 w0
  = Exn err_server (log (LogError err_server) (called w0)) /\
  exists k, attempts w0 (Wrapper.requestWrapper 2 (fun _ => @Throw Z err_server) 1 w0)
            = Some k /\ (k <= 2)%nat.
Proof.
  pose proof (transient_error_spends_budget (fun _ => @Throw Z err_server) 2 1 w0
                err_server eq_refl eq_refl) as (Hretry & _).
  pose proof (transient_error_spends_budget (fun _ => @Throw Z err_server) 2 0 w0
                err_server eq_refl eq_refl) as (_ & Hthrow & _).
  pose proof (transient_error_spends_budget (fun _ => @Throw Z err_server) 0 1 w0
                err_server eq_refl eq_refl) as (_ & _ & Htwice & _).
  split; [exact (Hretry ltac:(lia))|].
  split; [exact (Hthrow eq_refl)|exact (Htwice (fun _ => eq_refl))].
Defined.

(** ** The aggregation *)

Lemma reduce_sum (field : RepoWithEvents.t -> Z) repos : forall acc,
  fold_left (fun acc r => acc + field r) repos acc = acc + sum_of field repos.
Proof.
  induction repos as [|r repos IH]; intros acc; simpl.
  - unfold sum_of. simpl. lia.
  - rewrite IH. unfold sum_of. simpl. lia.
Qed.

(** C8: each of the five counters of an assembled organization is the sum of
    the corresponding field over its repositories, an absent star, watcher,
    fork or open-issue count counting as 0; for stars [3,0,5], watchers
    [1,1,1], forks [0,2,0], open issues [4,0,0] and events [10,0,7] the
    counters are 8, 3, 2, 4 and 17, and for no repository they are all 0. *)
Theorem counters_are_sums :
  (forall publicUser repos,
      let org := Scraper.make_org publicUser repos in
      Organization.totalRepoStars org = sum_of stars repos /\
      Organization.totalRepoWatchers org = sum_of watchers repos /\
      Organization.totalRepoForks org = sum_of forks repos /\
      Organization.totalRepoOpenIssues org = sum_of open_issues repos /\
      Organization.totalRepoLast90DaysEvents org
      = sum_of RepoWithEvents.last_90_days_events_count repos) /\
  (forall name s w f i e,
      stars (RepoWithEvents.Make (Repo.Make name None w f i) e) = 0 /\
      watchers (RepoWithEvents.Make (Repo.Make name s None f i) e) = 0 /\
      forks (RepoWithEvents.Make (Repo.Make name s w None i) e) = 0 /\
      open_issues (RepoWithEvents.Make (Repo.Make name s w f None) e) = 0) /\
  (totalRepoStars sample_repos, totalRepoWatchers sample_repos,
   totalRepoForks sample_repos, totalRepoOpenIssues sample_repos,
   totalRepoLast90DaysEvents sample_repos) = (8, 3, 2, 4, 17) /\
  (totalRepoStars [], totalRepoWatchers [], totalRepoForks [],
   totalRepoOpenIssues [], totalRepoLast90DaysEvents []) = (0, 0, 0, 0, 0).
Proof.
  split; [|repeat split].
  intros publicUser repos org. subst org. simpl.
  unfold totalRepoStars, totalRepoWatchers, totalRepoForks, totalRepoOpenIssues,
    totalRepoLast90DaysEvents.
  repeat split.
  - apply (reduce_sum stars).
  - apply (reduce_sum watchers).
  - apply (reduce_sum forks).
  - apply (reduce_sum open_issues).
  - apply (reduce_sum RepoWithEvents.last_90_days_events_count).
Qed.

(** ** The crawl controller *)

Import UtilsTime Wrapper Scraper.

Example ex_run_demo_first_page :
  attempts w0 (run 5 3 (demo 1 []) w0) = Some 10%nat /\
  match run 5 3 (demo 1 []) w0 with
  | Exn err w => err = err_network /\ disk w = [ScrapingResult.Make 1 "2020-03-04" [acme_org]]
  | _ => False
  end.
Proof. vm_compute. split; [reflexivity|split; reflexivity]. Qed.

Lemma requestWrapper_keeps_disk {D} (request : nat -> Response D) fuel :
  forall retries w, keeps_disk w (requestWrapper fuel request retries w).
Proof.
  induction fuel as [|fuel IH]; intros retries w; [exact I|].
  rewrite wrapper_unfold.
  destruct (request (calls w)) as [d h|err]; [reflexivity|].
  destruct (blocked err).
  { destruct (response err) as [[[[m [b|]]|] h]|]; reflexivity. }
  destruct (quota_left err).
  - destruct (negb (retries =? 0)); [|reflexivity].
    specialize (IH (retries - 1) (called w)).
    destruct (requestWrapper fuel request (retries - 1) (called w)); simpl in *; auto.
  - specialize (IH retries (await_reset err (called w))).
    destruct (requestWrapper fuel request retries (await_reset err (called w)));
      simpl in *; auto;
      rewrite IH; apply (await_reset_frame err (called w)).
Qed.

Lemma bind_val {A B} (c : M A) (k : A -> M B) w a w' :
  c w = Val a w' -> bind c k w = k a w'.
Proof. unfold bind. now intros ->. Qed.

Lemma bind_exn {A B} (c : M A) (k : A -> M B) w err w' :
  c w = Exn err w' -> bind c k w = Exn err w'.
Proof. unfold bind. now intros ->. Qed.

Lemma in_window_parses this :
  in_window this = true -> exists c, parse_civil (date this) = Some c.
Proof.
  unfold in_window, isAfter. destruct (parse_civil (date this)) as [c|]; [eauto|discriminate].
Qed.

Lemma getPreviousWeek_parsed d c :
  parse_civil d = Some c ->
  getPreviousWeek d = format_civil (civil_from_days (days_from_civil c - 7)).
Proof. unfold getPreviousWeek. now intros ->. Qed.

Lemma events_count_keeps_disk fuel this owner repo w :
  keeps_disk w (events_count fuel this owner repo w).
Proof.
  unfold events_count.
  pose proof (requestWrapper_keeps_disk (list_events (octokit this) owner (Repo.name repo))
                fuel retries_default w) as H.
  destruct (requestWrapper fuel _ retries_default w) as [ev w'|err w'|]; simpl in *; auto.
  destruct err; simpl; auto.
Qed.

Lemma with_events_keeps_disk fuel this owner rawRepos :
  forall repos w, keeps_disk w (with_events fuel this owner rawRepos repos w).
Proof.
  induction rawRepos as [|repo rest IH]; intros repos w; [reflexivity|].
  simpl. unfold bind.
  pose proof (events_count_keeps_disk fuel this owner repo w) as H.
  destruct (events_count fuel this owner repo w) as [n w'|err w'|]; simpl in *; auto.
  specialize (IH (repos ++ [RepoWithEvents.Make repo n]) w').
  destruct (with_events fuel this owner rest _ w'); simpl in *; congruence.
Qed.

Lemma with_events_app fuel this owner l1 : forall l2 repos w,
  with_events fuel this owner (l1 ++ l2) repos w
  = bind (with_events fuel this owner l1 repos)
      (fun repos' => with_events fuel this owner l2 repos') w.
Proof.
  induction l1 as [|repo l1 IH]; intros l2 repos w; [reflexivity|].
  simpl. unfold bind.
  destruct (events_count fuel this owner repo w) as [n w'|err w'|]; [|reflexivity..].
  rewrite IH. reflexivity.
Qed.

(** The repositories built so far are only extended. *)
Lemma with_events_extends fuel this owner rawRepos : forall repos w all w',
  with_events fuel this owner rawRepos repos w = Val all w' ->
  exists more, all = repos ++ more.
Proof.
  induction rawRepos as [|repo rest IH]; intros repos w all w' H.
  - inversion H. exists []. now rewrite app_nil_r.
  - simpl in H. unfold bind in H.
    destruct (events_count fuel this owner repo w) as [n w1|err w1|]; try discriminate.
    destruct (IH _ _ _ _ H) as [more ->].
    exists (RepoWithEvents.Make repo n :: more). now rewrite <- app_assoc.
Qed.

Lemma scrape_page_app fuel l1 : forall l2 this w,
  scrape_page fuel (l1 ++ l2) this w
  = bind (scrape_page fuel l1 this) (fun this' => scrape_page fuel l2 this') w.
Proof.
  induction l1 as [|o l1 IH]; intros l2 this w; [reflexivity|].
  simpl. unfold bind.
  destruct (scrape_organization fuel o this w) as [this1 w1|err w1|]; [|reflexivity..].
  rewrite IH. reflexivity.
Qed.

(** A value handed over by the governor is the payload of an answer. *)
Lemma requestWrapper_val {D} (request : nat -> Response D) fuel :
  forall retries w d w',
    requestWrapper fuel request retries w = Val d w' ->
    exists n hdrs, request n = Ok d hdrs.
Proof.
  induction fuel as [|fuel IH]; intros retries w d w' H; [discriminate|].
  rewrite wrapper_unfold in H.
  destruct (request (calls w)) as [d0 h|err] eqn:E.
  - inversion H; subst. eauto.
  - destruct (blocked err).
    { destruct (response err) as [[[[m [b|]]|] h]|]; discriminate. }
    destruct (quota_left err); [destruct (negb (retries =? 0)); [|discriminate]|];
      eapply IH; exact H.
Qed.

(** What one candidate does to the object and to the file: nothing, or one
    organization appended and the checkpoint written once. *)
Lemma scrape_organization_effect fuel organization this w this' w' :
  scrape_organization fuel organization this w = Val this' w' ->
  (this' = this /\ disk w' = disk w) \/
  (exists publicUser repos n hdrs,
      known this organization = false /\
      get_user (octokit this) (SearchItem.login organization) n = Ok publicUser hdrs /\
      this' = set_organizations (organizations this ++ [make_org publicUser repos]) this /\
      disk w' = disk w ++ [checkpoint this']).
Proof.
  unfold scrape_organization. destruct (known this organization) eqn:Hk.
  { intros H. inversion H; subst. now left. }
  unfold bind.
  pose proof (requestWrapper_keeps_disk
                (list_repos (octokit this) (SearchItem.login organization))
                fuel retries_default w) as Hd1.
  destruct (requestWrapper fuel (list_repos _ _) retries_default w)
    as [rawRepos w1|err w1|]; try discriminate.
  destruct (length rawRepos =? 0)%nat.
  { intros H. inversion H; subst. now left. }
  pose proof (requestWrapper_keeps_disk
                (get_user (octokit this) (SearchItem.login organization))
                fuel retries_default w1) as Hd2.
  destruct (requestWrapper fuel (get_user _ _) retries_default w1)
    as [publicUser w2|err w2|] eqn:Huser; try discriminate.
  pose proof (with_events_keeps_disk fuel this (SearchItem.login organization)
                rawRepos [] w2) as Hd3.
  destruct (with_events fuel this _ rawRepos [] w2) as [repos w3|err w3|];
    try discriminate.
  intros H. inversion H; subst. right.
  destruct (requestWrapper_val _ _ _ _ _ _ Huser) as (n & hdrs & Hn).
  exists publicUser, repos, n, hdrs. simpl in *.
  repeat split; auto. congruence.
Qed.

Lemma scrape_organization_known fuel organization this w :
  known this organization = true ->
  scrape_organization fuel organization this w = Val this w.
Proof. unfold scrape_organization. now intros ->. Qed.

Lemma known_iff this organization :
  known this organization = true <-> has_login (SearchItem.login organization) this.
Proof.
  unfold known, has_login. rewrite existsb_exists.
  split; intros (o & Hin & Ho); exists o; split; auto; now apply String.eqb_eq.
Qed.

Lemma has_login_grows L this this' added :
  organizations this' = organizations this ++ added ->
  has_login L this -> has_login L this'.
Proof.
  intros Ho (o & Hin & Hl). exists o. split; [|exact Hl].
  rewrite Ho. apply in_or_app. now left.
Qed.

Lemma scrape_page_skips_known fuel L items : forall this w,
  has_login L this ->
  scrape_page fuel items this w = scrape_page fuel (without L items) this w.
Proof.
  induction items as [|i items IH]; intros this w HL; [reflexivity|].
  change (without L (i :: items))
    with (if negb (String.eqb (SearchItem.login i) L)
          then i :: without L items else without L items).
  simpl. destruct (String.eqb (SearchItem.login i) L) eqn:E; simpl.
  - apply String.eqb_eq in E. unfold bind.
    rewrite scrape_organization_known by (apply known_iff; now rewrite E).
    now apply IH.
  - unfold bind.
    destruct (scrape_organization fuel i this w) as [this1 w1|err w1|] eqn:Hs;
      [|reflexivity..].
    apply IH.
    destruct (scrape_organization_effect _ _ _ _ _ _ Hs)
      as [[-> _]|(u & repos & n & h & _ & _ & -> & _)]; [exact HL|].
    eapply has_login_grows; [|exact HL]. reflexivity.
Qed.

Lemma scrape_page_effect fuel items : forall this w this' w',
  scrape_page fuel items this w = Val this' w' ->
  same_crawl this this' /\ nextPageToScrape this' = nextPageToScrape this /\
  date this' = date this /\
  exists added,
    organizations this' = organizations this ++ added /\
    (faithful_profiles (octokit this) ->
     forall o, In o added -> ~ has_login (Organization.login o) this).
Proof.
  induction items as [|i items IH]; intros this w this' w' H.
  - inversion H; subst. split; [repeat split|].
    split; [reflexivity|]. split; [reflexivity|].
    exists []. split; [now rewrite app_nil_r|].
    intros _ o [].
  - simpl in H. unfold bind in H.
    destruct (scrape_organization fuel i this w) as [this1 w1|err w1|] eqn:Hs;
      try discriminate.
    destruct (IH _ _ _ _ H) as (Hsame & Hpage & Hdate & added & Horgs & Hfresh).
    destruct (scrape_organization_effect _ _ _ _ _ _ Hs)
      as [[-> _]|(u & repos & n & h & Hk & Hu & -> & _)].
    + split; [exact Hsame|]. split; [exact Hpage|]. split; [exact Hdate|].
      exists added. split; auto.
    + simpl in *. split; [exact Hsame|]. split; [exact Hpage|]. split; [exact Hdate|].
      exists (make_org u repos :: added). split.
      { rewrite Horgs, <- app_assoc. reflexivity. }
      intros Hf o [<-|Hin].
      * simpl. rewrite (Hf _ _ _ _ Hu). intros Hhas.
        apply known_iff in Hhas. congruence.
      * intros Hhas. apply (Hfresh Hf o Hin).
        eapply has_login_grows; [|exact Hhas]. reflexivity.
Qed.

Lemma run_unfold turns fuel this w :
  in_window this = true ->
  run (S turns) fuel this w
  = bind (iteration fuel this) (fun this' => run turns fuel this') w.
Proof. intros H. simpl. now rewrite H. Qed.

Lemma run_finished turns fuel this w :
  in_window this = false ->
  run turns fuel this w = Val this (log (LogFinished (now w)) w).
Proof. intros H. destruct turns; simpl; now rewrite H. Qed.

(** The cursor and the date after one turn of the loop. *)
Lemma iteration_effect fuel this w this' w' :
  iteration fuel this w = Val this' w' ->
  same_crawl this this' /\
  ((date this' = date this /\ nextPageToScrape this' = nextPageToScrape this + 1) \/
   (date this' = getPreviousWeek (date this) /\ nextPageToScrape this' = 1 /\
    organizations this' = organizations this)).
Proof.
  unfold iteration, bind.
  destruct (requestWrapper fuel (page_request this) retries_default w)
    as [orgs w1|err w1|]; try discriminate.
  destruct (length (SearchData.items orgs) =? 0)%nat.
  - intros H. inversion H; subst. split; [repeat split|]. right. repeat split.
  - destruct (scrape_page fuel (SearchData.items orgs) this w1) as [this1 w2|err w2|] eqn:Hp;
      try discriminate.
    intros H. inversion H; subst.
    destruct (scrape_page_effect _ _ _ _ _ _ Hp) as (Hsame & Hpage & Hdate & _).
    split; [exact Hsame|]. left. simpl. split; [exact Hdate|]. now rewrite Hpage.
Qed.

Lemma window_step fuel this w this' w' c :
  parse_civil (date this) = Some c ->
  iteration fuel this w = Val this' w' ->
  ((date this' = date this /\ nextPageToScrape this' = nextPageToScrape this + 1) \/
   (nextPageToScrape this' = 1 /\
    exists c', date this' = format_civil c' /\ valid_civil c' = true /\
               days_from_civil c' = days_from_civil c - 7)) /\
  (forall c', parse_civil (date this') = Some c' ->
              days_from_civil c' <= days_from_civil c).
Proof.
  intros Hc Hit.
  destruct (iteration_effect _ _ _ _ _ Hit) as [_ [[Hd Hp]|(Hd & Hp & _)]].
  - split; [now left|]. intros c' Hc'. rewrite Hd, Hc in Hc'. inversion Hc'. lia.
  - rewrite (getPreviousWeek_parsed _ _ Hc) in Hd.
    pose proof (civil_from_days_valid (days_from_civil c - 7)) as Hv.
    pose proof (days_from_civil_from_days (days_from_civil c - 7)) as Hdays.
    split.
    + right. split; [exact Hp|]. eauto.
    + intros c' Hc'. rewrite Hd in Hc'.
      rewrite (parse_format_inv _ _ Hv Hc'). lia.
Qed.

Lemma events_count_blocked fuel this owner repo w reason w' :
  requestWrapper fuel (list_events (octokit this) owner (Repo.name repo))
    retries_default w = Exn (RepoBlocked reason) w' ->
  events_count fuel this owner repo w = Val 0 w'.
Proof. unfold events_count. now intros ->. Qed.

Lemma events_count_rethrows fuel this owner repo w err w' :
  requestWrapper fuel (list_events (octokit this) owner (Repo.name repo))
    retries_default w = Exn err w' ->
  (forall reason, err <> RepoBlocked reason) ->
  events_count fuel this owner repo w = Exn err w'.
Proof.
  unfold events_count. intros -> Hne.
  destruct err as [r|why|reset|]; try reflexivity. now destruct (Hne why).
Qed.

(** C9: a new candidate whose repository list comes back empty is skipped:
    the object (cursor, date, organizations) is returned as it was and nothing
    has been written to the checkpoint file. *)
Theorem no_repositories_no_record fuel organization this w w1 :
  known this organization = false ->
  requestWrapper fuel (list_repos (octokit this) (SearchItem.login organization))
    retries_default w = Val [] w1 ->
  scrape_organization fuel organization this w = Val this w1 /\
  disk w1 = disk w.
Proof.
  intros Hk Hrepos. split.
  - unfold scrape_organization. rewrite Hk.
    rewrite (bind_val _ _ _ _ _ Hrepos). reflexivity.
  - pose proof (requestWrapper_keeps_disk
                  (list_repos (octokit this) (SearchItem.login organization))
                  fuel retries_default w) as H.
    rewrite Hrepos in H. exact H.
Qed.

Lemma no_repositories_no_record_witness :
  scrape_organization 2 ghost (demo 1 [acme_org]) w0
  = Val (demo 1 [acme_org]) (called w0) /\
  disk (called w0) = disk w0.
Proof.
  exact (no_repositories_no_record 2 ghost (demo 1 [acme_org]) w0 (called w0)
           eq_refl eq_refl).
Defined.

(** C1: in a state inside the window (the date [D] is after the creation date
    of the oldest organization), with the cursor anywhere, an empty page makes
    the turn of the loop end with the cursor at 1 and the date seven calendar
    days before [D]; the checkpoint written last holds that cursor, that date
    and the organizations as they were, and [run] goes on from the new state
    with the loop condition evaluated again. *)
Theorem empty_page_advances_window fuel this w orgs w1 :
  in_window this = true ->
  requestWrapper fuel (page_request this) retries_default w = Val orgs w1 ->
  SearchData.items orgs = [] ->
  exists c,
    parse_civil (date this) = Some c /\
    let previous := civil_from_days (days_from_civil c - 7) in
    let this' := set_nextPageToScrape 1 (set_date (format_civil previous) this) in
    iteration fuel this w = Val this' (write (checkpoint this') w1) /\
    disk (write (checkpoint this') w1) = disk w ++ [checkpoint this'] /\
    checkpoint this'
    = ScrapingResult.Make 1 (format_civil previous) (organizations this) /\
    format_civil previous = getPreviousWeek (date this) /\
    valid_civil previous = true /\
    days_from_civil previous = days_from_civil c - 7 /\
    forall turns,
      run (S turns) fuel this w = run turns fuel this' (write (checkpoint this') w1).
Proof.
  intros Hw Hpage Hitems.
  destruct (in_window_parses this Hw) as [c Hc]. exists c.
  split; [exact Hc|]. cbv zeta.
  assert (Hdisk : disk w1 = disk w).
  { pose proof (requestWrapper_keeps_disk (page_request this) fuel retries_default w) as H.
    now rewrite Hpage in H. }
  assert (Hit : iteration fuel this w
                = Val (set_nextPageToScrape 1
                         (set_date (format_civil (civil_from_days (days_from_civil c - 7)))
                            this))
                    (write (checkpoint
                              (set_nextPageToScrape 1
                                 (set_date
                                    (format_civil (civil_from_days (days_from_civil c - 7)))
                                    this))) w1)).
  { unfold iteration. rewrite (bind_val _ _ _ _ _ Hpage), Hitems. simpl Nat.eqb. cbv iota.
    rewrite (getPreviousWeek_parsed _ _ Hc). reflexivity. }
  split; [exact Hit|].
  split; [simpl; now rewrite Hdisk|].
  split; [reflexivity|].
  split; [symmetry; apply (getPreviousWeek_parsed _ _ Hc)|].
  split; [apply civil_from_days_valid|].
  split; [apply days_from_civil_from_days|].
  intros turns. rewrite run_unfold by exact Hw.
  now rewrite (bind_val _ _ _ _ _ Hit).
Qed.

Lemma empty_page_advances_window_witness :
  iteration 2 (demo 5 [acme_org]) w0
  = Val (Scraper.Make demo_octokit "type:org" "result.json" 1 "2020-02-26"
           [acme_org] 3 "2019-10-01T08:00:00Z")
      (write (ScrapingResult.Make 1 "2020-02-26" [acme_org]) (called w0)).
Proof.
  destruct (empty_page_advances_window 2 (demo 5 [acme_org]) w0
              (SearchData.Make [] 3) (called w0) eq_refl eq_refl eq_refl)
    as (c & Hc & Hit & _).
  change (Some (Civil 2020 3 4) = Some c) in Hc. injection Hc as <-.
  exact Hit.
Defined.

(** C2: when the accumulated organizations already hold the login [L], a
    candidate with that login is skipped at once, with no request issued and
    nothing written; a page gives the same result as the page without the
    candidates of login [L]; and, the remote API answering a profile request
    with the profile asked for, no organization appended by the page has the
    login [L]. *)
Theorem known_login_not_appended_again fuel L items this w :
  has_login L this ->
  (forall organization,
      SearchItem.login organization = L ->
      scrape_organization fuel organization this w = Val this w) /\
  scrape_page fuel items this w = scrape_page fuel (without L items) this w /\
  (faithful_profiles (octokit this) ->
   forall this' w',
     scrape_page fuel items this w = Val this' w' ->
     exists added,
       organizations this' = organizations this ++ added /\
       forall o, In o added -> Organization.login o <> L).
Proof.
  intros HL. split; [|split].
  - intros organization E. apply scrape_organization_known, known_iff. now rewrite E.
  - now apply scrape_page_skips_known.
  - intros Hf this' w' H.
    destruct (scrape_page_effect _ _ _ _ _ _ H) as (_ & _ & _ & added & Horgs & Hfresh).
    exists added. split; [exact Horgs|].
    intros o Hin E. apply (Hfresh Hf o Hin). now rewrite E.
Qed.

Lemma demo_faithful : faithful_profiles demo_octokit.
Proof. intros username n publicUser hdrs H. inversion H. reflexivity. Qed.

Lemma known_login_not_appended_again_witness :
  scrape_organization 3 acme (demo 1 [acme_org]) w0 = Val (demo 1 [acme_org]) w0 /\
  scrape_page 3 [acme; initech; acme] (demo 1 [acme_org]) w0
  = scrape_page 3 [initech] (demo 1 [acme_org]) w0 /\
  exists added,
    [acme_org; initech_org] = [acme_org] ++ added /\
    forall o, In o added -> Organization.login o <> "acme".
Proof.
  pose proof (known_login_not_appended_again 3 "acme" [acme; initech; acme]
                (demo 1 [acme_org]) w0
                (ex_intro _ acme_org (conj (or_introl eq_refl) eq_refl)))
    as (Hskip & Hpage & Hfresh).
  split; [exact (Hskip acme eq_refl)|]. split; [exact Hpage|].
  exact (Hfresh demo_faithful (demo 1 [acme_org; initech_org])
           (MkWorld 1600000000000 3
              [LogOrganization 1600000000000 2 3 (Some "Acme") "initech" 3 3]
              [ScrapingResult.Make 1 "2020-03-04" [acme_org; initech_org]])
           eq_refl).
Defined.

Section BlockedRepository.

Variables (fuel : nat) (this : t) (organization : SearchItem.t).
Variables (w w1 w2 w3 : World).
Variables (done rest : list Repo.t) (repo : Repo.t).
Variables (publicUser : PublicUser.t) (repos : list RepoWithEvents.t).

(** The candidate is new, has repositories [done ++ repo :: rest] and a
    profile, and the events of the repositories before [repo] were counted. *)
Hypothesis Hnew : known this organization = false.
Hypothesis Hrepos :
  requestWrapper fuel (list_repos (octokit this) (SearchItem.login organization))
    retries_default w
  = Val (done ++ repo :: rest) w1.
Hypothesis Huser :
  requestWrapper fuel (get_user (octokit this) (SearchItem.login organization))
    retries_default w1
  = Val publicUser w2.
Hypothesis Hdone :
  with_events fuel this (SearchItem.login organization) done [] w2 = Val repos w3.

Lemma enrichment_reaches_repo :
  scrape_organization fuel organization this w
  = bind (with_events fuel this (SearchItem.login organization) (repo :: rest) repos)
      (fun all =>
         let org := make_org publicUser all in
         let this' := set_organizations (organizations this ++ [org]) this in
         do _ <- saveToFile this';
         do _ <- console_log (fun w =>
                   LogOrganization (now w) (Z.of_nat (length (organizations this')))
                     (totalCount this') (Organization.name org) (Organization.login org)
                     (Organization.totalRepoLast90DaysEvents org)
                     (Organization.totalRepoStars org));
         ret this') w3.
Proof.
  unfold scrape_organization. rewrite Hnew.
  rewrite (bind_val _ _ _ _ _ Hrepos).
  replace (length (done ++ repo :: rest) =? 0)%nat with false
    by (symmetry; apply Nat.eqb_neq; rewrite List.length_app; simpl; lia).
  rewrite (bind_val _ _ _ _ _ Huser).
  unfold bind at 1. rewrite with_events_app. unfold bind at 1. rewrite Hdone.
  reflexivity.
Qed.

(** C3: while an organization is enriched, repository after repository, an
    events request that fails with [RepoBlocked] gives that repository the
    count 0 and the enrichment goes on with the repositories that follow; once
    they are done the organization is assembled, appended and written to the
    checkpoint file.  An events request that fails with any other error makes
    that error leave the enrichment, the page and [run] itself. *)
Theorem blocked_events_count_zero :
  (forall reason w4,
      requestWrapper fuel
        (list_events (octokit this) (SearchItem.login organization) (Repo.name repo))
        retries_default w3 = Exn (RepoBlocked reason) w4 ->
      with_events fuel this (SearchItem.login organization) (repo :: rest) repos w3
      = with_events fuel this (SearchItem.login organization) rest
          (repos ++ [RepoWithEvents.Make repo 0]) w4 /\
      forall all w5,
        with_events fuel this (SearchItem.login organization) rest
          (repos ++ [RepoWithEvents.Make repo 0]) w4
        = Val all w5 ->
        let this' :=
          set_organizations (organizations this ++ [make_org publicUser all]) this in
        In (RepoWithEvents.Make repo 0) all /\
        exists w6,
          scrape_organization fuel organization this w = Val this' w6 /\
          disk w6 = disk w ++ [checkpoint this']) /\
  (forall err w4,
      requestWrapper fuel
        (list_events (octokit this) (SearchItem.login organization) (Repo.name repo))
        retries_default w3 = Exn err w4 ->
      (forall reason, err <> RepoBlocked reason) ->
      scrape_organization fuel organization this w = Exn err w4 /\
      forall this0 w0 before after,
        scrape_page fuel before this0 w0 = Val this w ->
        scrape_page fuel (before ++ organization :: after) this0 w0 = Exn err w4 /\
        forall turns orgs w00,
          in_window this0 = true ->
          requestWrapper fuel (page_request this0) retries_default w00 = Val orgs w0 ->
          SearchData.items orgs = before ++ organization :: after ->
          run (S turns) fuel this0 w00 = Exn err w4).
Proof.
  split.
  - intros reason w4 Hev.
    assert (Hstep :
      with_events fuel this (SearchItem.login organization) (repo :: rest) repos w3
      = with_events fuel this (SearchItem.login organization) rest
          (repos ++ [RepoWithEvents.Make repo 0]) w4).
    { simpl. now rewrite (bind_val _ _ _ _ _ (events_count_blocked _ _ _ _ _ _ _ Hev)). }
    split; [exact Hstep|].
    intros all w5 Hall this'.
    split.
    + destruct (with_events_extends _ _ _ _ _ _ _ _ Hall) as [more ->].
      apply in_or_app. left. apply in_or_app. right. now left.
    + rewrite enrichment_reaches_repo. unfold bind at 1. rewrite Hstep, Hall.
      eexists. split; [reflexivity|]. simpl.
      pose proof (requestWrapper_keeps_disk
                    (list_repos (octokit this) (SearchItem.login organization))
                    fuel retries_default w) as H1.
      rewrite Hrepos in H1.
      pose proof (requestWrapper_keeps_disk
                    (get_user (octokit this) (SearchItem.login organization))
                    fuel retries_default w1) as H2.
      rewrite Huser in H2.
      pose proof (with_events_keeps_disk fuel this (SearchItem.login organization)
                    done [] w2) as H3.
      rewrite Hdone in H3.
      pose proof (requestWrapper_keeps_disk
                    (list_events (octokit this) (SearchItem.login organization)
                       (Repo.name repo))
                    fuel retries_default w3) as H4.
      rewrite Hev in H4.
      pose proof (with_events_keeps_disk fuel this (SearchItem.login organization) rest
                    (repos ++ [RepoWithEvents.Make repo 0]) w4) as H5.
      rewrite Hall in H5. unfold keeps_disk in *.
      rewrite H5, H4, H3, H2, H1. reflexivity.
  - intros err w4 Hev Hne.
    assert (Horg : scrape_organization fuel organization this w = Exn err w4).
    { rewrite enrichment_reaches_repo. unfold bind at 1. simpl with_events.
      now rewrite (bind_exn _ _ _ _ _ (events_count_rethrows _ _ _ _ _ _ _ Hev Hne)). }
    split; [exact Horg|].
    intros this0 w0 before after Hbefore.
    assert (Hpage : scrape_page fuel (before ++ organization :: after) this0 w0
                    = Exn err w4).
    { rewrite scrape_page_app. rewrite (bind_val _ _ _ _ _ Hbefore). simpl.
      now rewrite (bind_exn _ _ _ _ _ Horg). }
    split; [exact Hpage|].
    intros turns orgs w00 Hw Hreq Hitems.
    rewrite run_unfold by exact Hw.
    apply bind_exn. unfold iteration.
    rewrite (bind_val _ _ _ _ _ Hreq), Hitems.
    replace (length (before ++ organization :: after) =? 0)%nat with false
      by (symmetry; apply Nat.eqb_neq; rewrite List.length_app; simpl; lia).
    now rewrite (bind_exn _ _ _ _ _ Hpage).
Qed.

End BlockedRepository.

(** [acme]'s second repository is blocked: it counts no event and [acme] is
    recorded with the three events of the first.  The events of [umbrella]'s
    repository fail twice for another reason, and that error comes out. *)
Lemma blocked_events_count_zero_witness :
  (exists w6,
      scrape_organization 3 acme (demo 1 []) w0 = Val (demo 1 [acme_org]) w6 /\
      disk w6 = [ScrapingResult.Make 1 "2020-03-04" [acme_org]] /\
      Organization.totalRepoLast90DaysEvents acme_org = 3) /\
  scrape_organization 3 umbrella (demo 1 []) w0
  = Exn err_network (MkWorld 1600000000000 4 [LogError err_network] []).
Proof.
  split.
  - pose proof (blocked_events_count_zero 3 (demo 1 []) acme
                  w0 (called w0) (called (called w0)) (called (called (called w0)))
                  [repo_a] [] repo_b (profile "acme") [RepoWithEvents.Make repo_a 3]
                  eq_refl eq_refl eq_refl eq_refl) as [Hblocked _].
    destruct (Hblocked "tos" (called (called (called (called w0)))) eq_refl)
      as [_ Hrecord].
    destruct (Hrecord [RepoWithEvents.Make repo_a 3; RepoWithEvents.Make repo_b 0]
                (called (called (called (called w0)))) eq_refl)
      as (_ & w6 & Hval & Hdisk).
    exists w6. split; [exact Hval|]. split; [exact Hdisk|reflexivity].
  - pose proof (blocked_events_count_zero 3 (demo 1 []) umbrella
                  w0 (called w0) (called (called w0)) (called (called w0))
                  [] [] repo_c (profile "umbrella") []
                  eq_refl eq_refl eq_refl eq_refl) as [_ Hother].
    refine (proj1 (Hother err_network
                     (MkWorld 1600000000000 4 [LogError err_network] [])
                     eq_refl _)).
    intros why. discriminate.
Defined.

(** C7: a turn of the loop that ends leaves the date where it was and moves
    the cursor on by one, or sets the cursor to 1 and the date to the calendar
    date seven days earlier; read back, the new date is never later than the
    old one. *)
Theorem searching_date_never_advances fuel this w this' w' :
  in_window this = true ->
  iteration fuel this w = Val this' w' ->
  exists c,
    parse_civil (date this) = Some c /\
    ((date this' = date this /\ nextPageToScrape this' = nextPageToScrape this + 1) \/
     (nextPageToScrape this' = 1 /\
      exists c', date this' = format_civil c' /\ valid_civil c' = true /\
                 days_from_civil c' = days_from_civil c - 7)) /\
    (forall c', parse_civil (date this') = Some c' ->
                days_from_civil c' <= days_from_civil c).
Proof.
  intros Hw Hit. destruct (in_window_parses this Hw) as [c Hc].
  exists c. split; [exact Hc|]. now apply (window_step fuel this w this' w').
Qed.

Lemma searching_date_never_advances_witness :
  let this := demo 2 [acme_org] in
  let this' := set_nextPageToScrape 3 this in
  exists c,
    parse_civil (date this) = Some c /\
    ((date this' = date this /\ nextPageToScrape this' = nextPageToScrape this + 1) \/
     (nextPageToScrape this' = 1 /\
      exists c', date this' = format_civil c' /\ valid_civil c' = true /\
                 days_from_civil c' = days_from_civil c - 7)) /\
    (forall c', parse_civil (date this') = Some c' ->
                days_from_civil c' <= days_from_civil c).
Proof.
  exact (searching_date_never_advances 3 (demo 2 [acme_org]) w0
           (set_nextPageToScrape 3 (demo 2 [acme_org]))
           (write (ScrapingResult.Make 3 "2020-03-04" [acme_org])
              (called (called w0)))
           eq_refl eq_refl).
Defined.

(** Over a whole run the date only moves back. *)
Corollary run_date_monotone turns : forall fuel this w this' w' c c',
  run turns fuel this w = Val this' w' ->
  parse_civil (date this) = Some c -> parse_civil (date this') = Some c' ->
  days_from_civil c' <= days_from_civil c.
Proof.
  induction turns as [|turns IH]; intros fuel this w this' w' c c' Hrun Hc Hc'.
  - simpl in Hrun. destruct (in_window this); [discriminate|].
    inversion Hrun; subst. rewrite Hc in Hc'. inversion Hc'. lia.
  - destruct (in_window this) eqn:Hw.
    + rewrite run_unfold in Hrun by exact Hw. unfold bind in Hrun.
      destruct (iteration fuel this w) as [this1 w1|err w1|] eqn:Hit; try discriminate.
      destruct (window_step _ _ _ _ _ c Hc Hit) as [_ Hle].
      destruct (in_window this1) eqn:Hw1.
      * destruct (in_window_parses this1 Hw1) as [c1 Hc1].
        specialize (IH _ _ _ _ _ _ _ Hrun Hc1 Hc'). specialize (Hle c1 Hc1). lia.
      * rewrite run_finished in Hrun by exact Hw1. inversion Hrun; subst.
        now apply Hle.
    + rewrite run_finished in Hrun by exact Hw. inversion Hrun; subst.
      rewrite Hc in Hc'. inversion Hc'. lia.
Qed.

(** * Further properties *)

(** ** The request governor, continued *)

Lemma strict_handler_unfold {D} (again : Z -> World -> Res D) err retries w :
  StrictWrapper.handler again err retries w =
  if StrictWrapper.quota_left err then
    if negb (retries =? 0) then again (retries - 1) (log (LogError err) w)
    else Exn err (log (LogError err) w)
  else again retries (StrictWrapper.await_reset err w).
Proof. reflexivity. Qed.

Lemma effect_refl {A} (w : World) (r : Res A) :
  match r with Val _ w' | Exn _ w' => w' = w | Diverge => True end ->
  effect w r [].
Proof.
  destruct r as [a w'|e w'|]; simpl; auto; intros ->;
    (repeat split; [lia|lia|exists []; now rewrite app_nil_r|now rewrite app_nil_r]).
Qed.

Lemma effect_step {A} (w w1 : World) (r : Res A) docs1 docs2 :
  now w <= now w1 -> (calls w <= calls w1)%nat ->
  (exists entries, console w1 = console w ++ entries) ->
  disk w1 = disk w ++ docs1 ->
  effect w1 r docs2 -> effect w r (docs1 ++ docs2).
Proof.
  intros Hn Hc [e1 He1] Hd.
  destruct r as [a w'|e w'|]; simpl; auto;
    intros (Hn' & Hc' & [e2 He2] & Hd');
    (repeat split; [lia|lia|exists (e1 ++ e2); now rewrite He2, He1, app_assoc
                   |now rewrite Hd', Hd, app_assoc]).
Qed.

Lemma effect_called w : 
  now w <= now (called w) /\ (calls w <= calls (called w))%nat /\
  (exists entries, console (called w) = console w ++ entries) /\
  disk (called w) = disk w ++ [].
Proof. simpl. repeat split; [lia|lia|exists []; now rewrite app_nil_r|now rewrite app_nil_r]. Qed.

(** The governor, in either variant, only lets time pass, issues requests and
    writes to the console. *)
Lemma wrapper_effect {D} (request : nat -> Response D) fuel :
  forall retries w, effect w (Wrapper.requestWrapper fuel request retries w) [].
Proof.
  induction fuel as [|fuel IH]; intros retries w; [exact I|].
  rewrite wrapper_unfold.
  destruct (effect_called w) as (Hn & Hc & He & Hd).
  destruct (request (calls w)) as [d h|err].
  { change (@nil ScrapingResult.t) with (@nil ScrapingResult.t ++ []).
    eapply effect_step; eauto. now apply effect_refl. }
  destruct (Wrapper.blocked err).
  { change (@nil ScrapingResult.t) with (@nil ScrapingResult.t ++ []).
    destruct (response err) as [[[[m [b|]]|] h]|];
      (eapply effect_step; eauto; now apply effect_refl). }
  destruct (Wrapper.quota_left err).
  - destruct (negb (retries =? 0)).
    + change (@nil ScrapingResult.t) with (@nil ScrapingResult.t ++ []).
      eapply effect_step; eauto.
    + simpl. repeat split; [lia|lia|exists [LogError err]; reflexivity|now rewrite app_nil_r].
  - change (@nil ScrapingResult.t) with (@nil ScrapingResult.t ++ []).
    eapply (effect_step w (Wrapper.await_reset err (called w))); [| | | |apply IH].
    + unfold Wrapper.await_reset. destruct (resetMoment err); simpl; lia.
    + unfold Wrapper.await_reset. destruct (resetMoment err); simpl; lia.
    + unfold Wrapper.await_reset. destruct (resetMoment err); simpl;
        eexists; rewrite <- app_assoc; reflexivity.
    + unfold Wrapper.await_reset. destruct (resetMoment err); simpl; now rewrite app_nil_r.
Qed.

Lemma strict_effect {D} cls (request : nat -> Response D) fuel :
  forall retries w, effect w (StrictWrapper.requestWrapper cls fuel request retries w) [].
Proof.
  induction fuel as [|fuel IH]; intros retries w; [exact I|].
  rewrite strict_unfold.
  destruct (effect_called w) as (Hn & Hc & He & Hd).
  assert (Hh : forall err,
             effect w (StrictWrapper.handler (StrictWrapper.requestWrapper cls fuel request)
                         err retries (called w)) []).
  { intros err. rewrite strict_handler_unfold.
    destruct (StrictWrapper.quota_left err).
    - destruct (negb (retries =? 0)).
      + change (@nil ScrapingResult.t) with (@nil ScrapingResult.t ++ []).
        eapply (effect_step w (log (LogError err) (called w))); [| | | |apply IH]; simpl;
          [lia|lia|exists [LogError err]; reflexivity|now rewrite app_nil_r].
      + simpl. repeat split; [lia|lia|exists [LogError err]; reflexivity|now rewrite app_nil_r].
    - change (@nil ScrapingResult.t) with (@nil ScrapingResult.t ++ []).
      eapply (effect_step w (StrictWrapper.await_reset err (called w))); [| | | |apply IH].
      + unfold StrictWrapper.await_reset. destruct (resetMoment err); simpl; lia.
      + unfold StrictWrapper.await_reset. destruct (resetMoment err); simpl; lia.
      + unfold StrictWrapper.await_reset. destruct (resetMoment err); simpl;
          eexists; reflexivity.
      + unfold StrictWrapper.await_reset. destruct (resetMoment err); simpl;
          now rewrite app_nil_r. }
  destruct (request (calls w)) as [d h|err]; [|apply Hh].
  destruct (is_string _ _); [apply Hh|].
  change (@nil ScrapingResult.t) with (@nil ScrapingResult.t ++ []).
  eapply effect_step; eauto. now apply effect_refl.
Qed.

Lemma wrapper_calls {D} (request : nat -> Response D) fuel :
  forall retries w,
    match Wrapper.requestWrapper fuel request retries w with
    | Val _ w' | Exn _ w' => (calls w < calls w')%nat
    | Diverge => True
    end.
Proof.
  induction fuel as [|fuel IH]; intros retries w; [exact I|].
  rewrite wrapper_unfold.
  destruct (request (calls w)) as [d h|err]; [simpl; lia|].
  destruct (Wrapper.blocked err).
  { destruct (response err) as [[[[m [b|]]|] h]|]; simpl; lia. }
  destruct (Wrapper.quota_left err).
  - destruct (negb (retries =? 0)); [|simpl; lia].
    specialize (IH (retries - 1) (called w)).
    destruct (Wrapper.requestWrapper fuel request (retries - 1) (called w)); simpl in *; lia.
  - specialize (IH retries (Wrapper.await_reset err (called w))).
    destruct (await_reset_frame err (called w)) as (Hc & _).
    destruct (Wrapper.requestWrapper fuel request retries _); simpl in *; lia.
Qed.

Lemma strict_calls {D} cls (request : nat -> Response D) fuel :
  forall retries w,
    match StrictWrapper.requestWrapper cls fuel request retries w with
    | Val _ w' | Exn _ w' => (calls w < calls w')%nat
    | Diverge => True
    end.
Proof.
  induction fuel as [|fuel IH]; intros retries w; [exact I|].
  rewrite strict_unfold.
  assert (Hh : forall err,
             match StrictWrapper.handler (StrictWrapper.requestWrapper cls fuel request)
                     err retries (called w) with
             | Val _ w' | Exn _ w' => (calls w < calls w')%nat
             | Diverge => True
             end).
  { intros err. rewrite strict_handler_unfold.
    destruct (StrictWrapper.quota_left err).
    - destruct (negb (retries =? 0)); [|simpl; lia].
      specialize (IH (retries - 1) (log (LogError err) (called w))).
      destruct (StrictWrapper.requestWrapper cls fuel request _ _); simpl in *; lia.
    - specialize (IH retries (StrictWrapper.await_reset err (called w))).
      destruct (await_reset_frame err (called w)) as (_ & _ & Hc & _).
      destruct (StrictWrapper.requestWrapper cls fuel request retries _); simpl in *; lia. }
  destruct (request (calls w)) as [d h|err]; [|apply Hh].
  destruct (is_string _ _); [apply Hh|simpl; lia].
Qed.

(** X4: in either variant, a call of the governor that settles has issued at
    least one request, has only added entries to the console, has not moved the
    clock back and has not written to the checkpoint file. *)
Theorem governor_frame {D} (cls : option string -> option ErrorResponse)
    (request : nat -> Response D) fuel retries w :
  effect w (Wrapper.requestWrapper fuel request retries w) [] /\
  effect w (StrictWrapper.requestWrapper cls fuel request retries w) [] /\
  match Wrapper.requestWrapper fuel request retries w with
  | Val _ w' | Exn _ w' => (calls w < calls w')%nat
  | Diverge => True
  end /\
  match StrictWrapper.requestWrapper cls fuel request retries w with
  | Val _ w' | Exn _ w' => (calls w < calls w')%nat
  | Diverge => True
  end.
Proof.
  split; [apply wrapper_effect|]. split; [apply strict_effect|].
  split; [apply wrapper_calls|apply strict_calls].
Qed.

(** X1: any number of rate-limited answers (none of them a blocked repository)
    followed by a successful one makes the governor return the payload of
    that answer, whatever the retry budget, zero included: every one of these
    answers cost one request, nothing was written to the file and the clock
    did not go back. *)
Theorem success_after_waits {D} (request : nat -> Response D) (k : nat) fuel
    retries w data headers :
  (forall i, (i < k)%nat -> exists err,
      request (calls w + i)%nat = Throw err /\ limited err) ->
  request (calls w + k)%nat = Ok data headers ->
  exists w',
    Wrapper.requestWrapper (k + S fuel) request retries w = Val data w' /\
    calls w' = (calls w + k + 1)%nat /\ disk w' = disk w /\ now w <= now w'.
Proof.
  intros Hlim Hok.
  destruct (waits_keep_budget request k (S fuel) retries w) as (w1 & Hc & Hd & Hn & Hrun).
  { intros i Hi. destruct (Hlim i Hi) as (err & Hreq & Hb & Hq). eauto. }
  exists (called w1). rewrite Hrun, wrapper_unfold, Hc, Hok.
  simpl. repeat split; [lia|exact Hd|exact Hn].
Qed.

Lemma success_after_waits_witness :
  exists w',
    Wrapper.requestWrapper 3
      (fun n => match n with O | 1%nat => Throw err_limited | _ => Ok 7 ∅ end) 0 w0
    = Val 7 w' /\
    calls w' = 3%nat /\ disk w' = disk w0 /\ now w0 <= now w'.
Proof.
  refine (success_after_waits
            (fun n => match n with O | 1%nat => Throw err_limited | _ => Ok 7 ∅ end)
            2 0 0 w0 7 ∅ _ eq_refl).
  intros i Hi. exists err_limited.
  destruct i as [|[|i]]; [repeat split..|lia].
Defined.

(** X2: with a non-negative budget and an operation that never meets a block
    or the rate limit, the governor settles (it returns or throws) after at
    least one and at most budget + 1 attempts. *)
Theorem budget_bounds_attempts {D} (request : nat -> Response D) fuel :
  forall retries w,
    (forall n, never_limited (request n)) ->
    0 <= retries -> (Z.to_nat retries < fuel)%nat ->
    exists k,
      attempts w (Wrapper.requestWrapper fuel request retries w) = Some k /\
      (1 <= k)%nat /\ Z.of_nat k <= retries + 1.
Proof.
  induction fuel as [|fuel IH]; intros retries w Hall Hr Hf; [lia|].
  rewrite wrapper_unfold. pose proof (Hall (calls w)) as Hfirst.
  destruct (request (calls w)) as [d h|err].
  - exists 1%nat. simpl. split; [f_equal; lia|lia].
  - simpl in Hfirst. apply transient_inv in Hfirst as [Hb Hq]. rewrite Hb, Hq.
    destruct (Z.eq_dec retries 0) as [->|Hne].
    + exists 1%nat. simpl. split; [f_equal; lia|lia].
    + replace (negb (retries =? 0)) with true
        by (symmetry; apply negb_true_iff, Z.eqb_neq; exact Hne).
      destruct (IH (retries - 1) (called w) Hall ltac:(lia) ltac:(lia))
        as (k & Hk & Hk1 & Hk2).
      exists (S k). split; [|lia].
      destruct (Wrapper.requestWrapper fuel request (retries - 1) (called w))
        as [a w'|e w'|] eqn:E; try discriminate.
      * pose proof (wrapper_calls request fuel (retries - 1) (called w)) as Hc.
        rewrite E in Hc. simpl in *. inversion Hk. f_equal. lia.
      * pose proof (wrapper_calls request fuel (retries - 1) (called w)) as Hc.
        rewrite E in Hc. simpl in *. inversion Hk. f_equal. lia.
Qed.

Lemma budget_bounds_attempts_witness :
  exists k,
    attempts w0 (Wrapper.requestWrapper 4
                   (fun n => match n with O | 1%nat => Throw err_server | _ => Ok 7 ∅ end)
                   3 w0) = Some k /\
    (1 <= k)%nat /\ Z.of_nat k <= 3 + 1.
Proof.
  refine (budget_bounds_attempts
            (fun n => match n with O | 1%nat => Throw err_server | _ => Ok 7 ∅ end)
            4 3 w0 _ ltac:(lia) ltac:(simpl; lia)).
  intros n. destruct n as [|[|n]]; simpl; auto.
Defined.

(** X3: the budget is tested for being non-zero, so a negative budget is
    never used up: against an operation that keeps failing for a transient
    reason the governor retries for ever. *)
Theorem negative_budget_never_exhausted {D} (request : nat -> Response D) fuel :
  forall retries w,
    (forall n, exists err, request n = Throw err /\ transient err = true) ->
    retries < 0 ->
    Wrapper.requestWrapper fuel request retries w = Diverge.
Proof.
  induction fuel as [|fuel IH]; intros retries w Hall Hneg; [reflexivity|].
  destruct (Hall (calls w)) as (err & Hreq & Ht).
  rewrite (transient_step _ _ _ _ err Hreq Ht).
  replace (negb (retries =? 0)) with true
    by (symmetry; apply negb_true_iff, Z.eqb_neq; lia).
  apply IH; [exact Hall|lia].
Qed.

Lemma negative_budget_never_exhausted_witness :
  Wrapper.requestWrapper 50 (fun _ => @Throw Z err_server) (-1) w0 = Diverge.
Proof.
  refine (negative_budget_never_exhausted (fun _ => @Throw Z err_server) 50 (-1) w0
            _ ltac:(lia)).
  intros n. exists err_server. split; reflexivity.
Defined.

Lemma same_but_console_called a b :
  same_but_console a b -> same_but_console (called a) (called b).
Proof. intros (Hn & Hc & Hd). unfold same_but_console. simpl. auto. Qed.

Lemma same_but_console_log a b e1 :
  same_but_console a b -> same_but_console (log e1 a) b.
Proof. intros (Hn & Hc & Hd). unfold same_but_console. simpl. auto. Qed.

Lemma same_but_console_await a b err :
  same_but_console a b ->
  same_but_console (Wrapper.await_reset err a) (StrictWrapper.await_reset err b).
Proof.
  intros (Hn & Hc & Hd). unfold same_but_console, Wrapper.await_reset,
    StrictWrapper.await_reset.
  destruct (resetMoment err); simpl; repeat split; congruence.
Qed.

Lemma same_but_console_sym a b : same_but_console a b -> same_but_console b a.
Proof. intros (Hn & Hc & Hd). repeat split; congruence. Qed.

(** X5: on an operation that never answers with a blocked repository nor
    with a successful response whose quota is exhausted, the two variants of
    the governor return the same payload or throw the same error, at the same
    time and after the same number of requests; they differ in what they write
    to the console only. *)
Theorem variants_agree {D} (cls : option string -> option ErrorResponse)
    (request : nat -> Response D) fuel :
  forall retries w1 w2,
    (forall n, plain (request n)) ->
    same_but_console w1 w2 ->
    agree (Wrapper.requestWrapper fuel request retries w1)
          (StrictWrapper.requestWrapper cls fuel request retries w2).
Proof.
  induction fuel as [|fuel IH]; intros retries w1 w2 Hall Hw; [exact I|].
  rewrite wrapper_unfold, strict_unfold.
  assert (Hcalls : calls w1 = calls w2) by apply Hw. rewrite <- Hcalls.
  pose proof (Hall (calls w1)) as Hp.
  destruct (request (calls w1)) as [d h|err]; simpl in Hp.
  - rewrite Hp. simpl. split; [reflexivity|now apply same_but_console_called].
  - rewrite Hp, strict_handler_unfold.
    change (StrictWrapper.quota_left err) with (Wrapper.quota_left err).
    destruct (Wrapper.quota_left err).
    + destruct (negb (retries =? 0)).
      * apply IH; [exact Hall|].
        apply same_but_console_sym, same_but_console_log, same_but_console_sym.
        now apply same_but_console_called.
      * simpl. split; [reflexivity|].
        apply same_but_console_log, same_but_console_sym, same_but_console_log,
          same_but_console_sym. now apply same_but_console_called.
    + apply IH; [exact Hall|]. apply same_but_console_await.
      now apply same_but_console_called.
Qed.

Lemma variants_agree_witness :
  agree
    (Wrapper.requestWrapper 5
       (fun n => match n with O => Throw err_limited | 1%nat => Throw err_server
                         | _ => Ok 7 ∅ end) 1 w0)
    (StrictWrapper.requestWrapper reporting_class 5
       (fun n => match n with O => Throw err_limited | 1%nat => Throw err_server
                         | _ => Ok 7 ∅ end) 1 w0).
Proof.
  refine (variants_agree reporting_class
            (fun n => match n with O => Throw err_limited | 1%nat => Throw err_server
                              | _ => Ok 7 ∅ end) 5 1 w0 w0 _ _).
  - intros n. destruct n as [|[|n]]; reflexivity.
  - repeat split.
Defined.



(** X7: what the governor returns is the payload of a successful answer of
    the operation; what it throws is [RepoBlocked] with the reason of a blocked
    answer, a [TypeError] for a blocked answer without a block, or an error of
    the operation that was not blocked and had quota left.  An error that
    reports an exhausted quota is never passed on. *)
Theorem governor_provenance {D} (request : nat -> Response D) fuel :
  forall retries w, provenance request (Wrapper.requestWrapper fuel request retries w).
Proof.
  induction fuel as [|fuel IH]; intros retries w; [exact I|].
  rewrite wrapper_unfold.
  destruct (request (calls w)) as [d h|err] eqn:E; [simpl; eauto|].
  destruct (Wrapper.blocked err) eqn:Hb.
  { destruct (response err) as [[[[m [b|]]|] h]|] eqn:Hr; simpl;
      exists (calls w), err; rewrite Hb; (split; [exact E|]); auto.
    right. exists b. split; [reflexivity|]. eauto. }
  destruct (Wrapper.quota_left err) eqn:Hq; [|apply IH].
  destruct (negb (retries =? 0)); [apply IH|].
  simpl. exists (calls w), err. rewrite Hb. auto.
Qed.

(** ** Dates and times, continued *)

Lemma year_lower n : -719528 <= n -> 0 <= year (civil_from_days n).
Proof.
  intros H. unfold civil_from_days. cbv zeta. simpl year.
  set (z := n + 719468). set (era := z / 146097). set (doe := z - era * 146097).
  assert (Hdoe : 0 <= doe <= 146096) by (subst doe era; apply doe_range).
  pose proof (yoe_range doe Hdoe). pose proof (mp_range doe Hdoe).
  assert (era >= -1) by (subst era z; zdiv).
  destruct (Z.eq_dec era (-1)) as [E|E].
  - assert (Hd : doe >= 146037) by (subst doe era z; zdiv).
    assert (Hym : yoe_of_doe doe = 399 /\ mp_of_doe doe >= 10).
    { clear -Hd Hdoe. clearbody doe. unfold mp_of_doe, doy_of_doe, yoe_of_doe. zdiv. }
    destruct Hym as [Hy Hm]. rewrite Hy, E.
    destruct (mp_of_doe doe <? 10) eqn:E1; [apply Z.ltb_lt in E1; lia|].
    destruct (mp_of_doe doe - 9 <=? 2) eqn:E2; [lia|apply Z.leb_gt in E2; lia].
  - destruct (_ <=? 2); lia.
Qed.

Lemma year_upper n : n <= 2932896 -> year (civil_from_days n) <= 9999.
Proof.
  intros H. unfold civil_from_days. cbv zeta. simpl year.
  set (z := n + 719468). set (era := z / 146097). set (doe := z - era * 146097).
  assert (Hdoe : 0 <= doe <= 146096) by (subst doe era; apply doe_range).
  pose proof (yoe_range doe Hdoe). pose proof (mp_range doe Hdoe).
  assert (era <= 24) by (subst era z; zdiv).
  destruct (Z.eq_dec era 24) as [E|E].
  - assert (Hd : doe <= 146036) by (subst doe era z; zdiv).
    assert (Hym : yoe_of_doe doe <= 398 \/ mp_of_doe doe < 10).
    { clear -Hd Hdoe. clearbody doe. unfold mp_of_doe, doy_of_doe, yoe_of_doe. zdiv. }
    rewrite E.
    destruct (mp_of_doe doe <? 10) eqn:E1.
    + apply Z.ltb_lt in E1.
      destruct (mp_of_doe doe + 3 <=? 2) eqn:E2; [apply Z.leb_le in E2; lia|lia].
    + apply Z.ltb_ge in E1. destruct (_ <=? 2); lia.
  - destruct (_ <=? 2); lia.
Qed.

Lemma valid_civil_inv c :
  valid_civil c = true -> 1 <= month c <= 12 /\ 1 <= day c <= 31.
Proof.
  destruct c as [y m d]. unfold valid_civil, days_in_month. simpl. intros Hv.
  repeat (apply andb_true_iff in Hv as [Hv ?]).
  repeat match goal with H : (_ <=? _) = true |- _ => apply Z.leb_le in H end.
  destruct (m =? 2); [destruct (is_leap y)|destruct (_ || _)]; lia.
Qed.

Lemma days_upper c :
  valid_civil c = true -> year c <= 9999 -> days_from_civil c <= 2932896.
Proof.
  intros Hv Hy. destruct (valid_civil_inv c Hv) as [Hm Hd].
  destruct c as [y m d]. simpl in *. unfold days_from_civil. simpl.
  destruct (m <=? 2) eqn:E1; destruct (m >? 2) eqn:E2; try lia; zdiv.
Qed.

Lemma digit_val_range a d : digit_val a = Some d -> 0 <= d <= 9.
Proof.
  unfold digit_val.
  destruct ((48 <=? _) && (_ <=? 57)) eqn:E; [|discriminate].
  apply andb_true_iff in E as [E1 E2]. apply Z.leb_le in E1, E2.
  intros H. inversion H. lia.
Qed.

Lemma num2_range a b n : num2 a b = Some n -> 0 <= n <= 99.
Proof.
  unfold num2. destruct (digit_val a) as [x|] eqn:Ea; [|discriminate].
  destruct (digit_val b) as [y|] eqn:Eb; [|discriminate].
  apply digit_val_range in Ea, Eb. intros H. inversion H. lia.
Qed.

(** What [parse_civil] accepts is a date that exists, in the years 0 to
    9999. *)
Lemma parse_civil_valid s c :
  parse_civil s = Some c -> valid_civil c = true /\ 0 <= year c <= 9999.
Proof.
  unfold parse_civil.
  destruct (list_ascii_of_string s)
    as [|a0 [|a1 [|a2 [|a3 [|a4 [|a5 [|a6 [|a7 [|a8 [|a9 [|a10 l]]]]]]]]]]];
    try discriminate.
  destruct (is_hyphen a4 && is_hyphen a7); [|discriminate].
  unfold num4.
  destruct (num2 a0 a1) as [x|] eqn:E1; [|discriminate].
  destruct (num2 a2 a3) as [y|] eqn:E2; [|discriminate].
  destruct (num2 a5 a6) as [m|]; [|discriminate].
  destruct (num2 a8 a9) as [d|]; [|discriminate].
  destruct (valid_civil _) eqn:Hv; [|discriminate].
  intros H. inversion H; subst. split; [exact Hv|].
  apply num2_range in E1, E2. simpl. lia.
Qed.

Lemma previous_week_parses d c :
  parse_civil d = Some c -> -719528 <= days_from_civil c - 7 ->
  parse_civil (getPreviousWeek d) = Some (civil_from_days (days_from_civil c - 7)).
Proof.
  intros Hc Hlow. rewrite (getPreviousWeek_parsed _ _ Hc).
  destruct (parse_civil_valid _ _ Hc) as [Hv Hy].
  apply parse_format; [|apply civil_from_days_valid].
  split; [now apply year_lower|].
  apply year_upper. pose proof (days_upper c Hv ltac:(lia)). lia.
Qed.

(** X8: applying [getPreviousWeek] [k] times to a date leads to the date
    [7 * k] days earlier, again in the form ['YYYY-MM-DD'], as long as that
    date is not before 1 January of the year 0. *)
Theorem previous_weeks d c (k : nat) :
  parse_civil d = Some c ->
  -719528 <= days_from_civil c - 7 * Z.of_nat k ->
  exists c',
    parse_civil (Nat.iter k getPreviousWeek d) = Some c' /\
    days_from_civil c' = days_from_civil c - 7 * Z.of_nat k.
Proof.
  intros Hc. induction k as [|k IH]; intros Hlow.
  - exists c. simpl. split; [exact Hc|lia].
  - destruct IH as (c1 & Hc1 & Hd1); [lia|].
    exists (civil_from_days (days_from_civil c1 - 7)). simpl Nat.iter. split.
    + apply previous_week_parses; [exact Hc1|lia].
    + rewrite days_from_civil_from_days. lia.
Qed.

Lemma previous_weeks_witness :
  exists c',
    parse_civil (Nat.iter 9 getPreviousWeek "2020-03-04") = Some c' /\
    days_from_civil c' = days_from_civil (Civil 2020 3 4) - 7 * Z.of_nat 9.
Proof.
  exact (previous_weeks "2020-03-04" (Civil 2020 3 4) 9 eq_refl ltac:(vm_compute; discriminate)).
Defined.

(** X9: for a clock in the years 0 to 9999, the date a crawl without a
    readable checkpoint starts from is a date that [run] can read, and it is
    the day the clock stands in. *)
Theorem fresh_start_date w :
  -62167219200000 <= now w < 253402300800000 ->
  exists c,
    parse_civil (Startup.today w) = Some c /\
    valueOf c <= now w < valueOf c + ms_per_day.
Proof.
  intros H. unfold Startup.today.
  exists (civil_from_days (now w / ms_per_day)). split.
  - apply parse_format; [|apply civil_from_days_valid]. split.
    + apply year_lower. unfold ms_per_day. zdiv.
    + apply year_upper. unfold ms_per_day. zdiv.
  - unfold valueOf. rewrite days_from_civil_from_days. unfold ms_per_day. zdiv.
Qed.

Lemma fresh_start_date_witness :
  exists c,
    parse_civil (Startup.today w0) = Some c /\
    valueOf c <= now w0 < valueOf c + ms_per_day.
Proof. exact (fresh_start_date w0 ltac:(simpl; lia)). Defined.

Example ex_today : Startup.today w0 = "2020-09-13".
Proof. reflexivity. Qed.

Example ex_formatted_time : getFormattedTime (MkWorld 1600000061234 0 [] []) = "12:27:41.23".
Proof. reflexivity. Qed.

Lemma formatted_time_digits w :
  let ms := now w mod ms_per_day in
  getFormattedTime w
  = pad2 (ms / 3600000) +:+ ":" +:+ pad2 (ms / 60000 mod 60) +:+ ":"
    +:+ pad2 (ms / 1000 mod 60) +:+ "." +:+ pad2 (ms mod 1000 / 10).
Proof.
  intros ms. unfold getFormattedTime. fold ms.
  assert (0 <= ms < 86400000) by (subst ms; unfold ms_per_day; zdiv).
  rewrite !zeroFill_2 by zdiv. reflexivity.
Qed.

Lemma pad2_inj a b : 0 <= a <= 99 -> 0 <= b <= 99 -> pad2 a = pad2 b -> a = b.
Proof.
  intros Ha Hb H. unfold pad2 in H. injection H as H1 H2.
  pose proof (num2_pad2 a Ha) as Na. pose proof (num2_pad2 b Hb) as Nb.
  rewrite H1, H2 in Na. congruence.
Qed.

(** X10: [getFormattedTime] gives the same text for two clocks exactly when
    they stand in the same hundredth of a second of the day. *)
Theorem formatted_time_resolution w1 w2 :
  getFormattedTime w1 = getFormattedTime w2 <->
  now w1 mod ms_per_day / 10 = now w2 mod ms_per_day / 10.
Proof.
  rewrite !formatted_time_digits. cbv zeta.
  set (a := now w1 mod ms_per_day). set (b := now w2 mod ms_per_day).
  assert (Ha : 0 <= a < 86400000) by (subst a; unfold ms_per_day; zdiv).
  assert (Hb : 0 <= b < 86400000) by (subst b; unfold ms_per_day; zdiv).
  clearbody a b. split.
  - intros H. unfold pad2 in H.
    lazy beta iota zeta delta [String.append] in H.
    injection H as h1 h2 m1 m2 s1 s2 c1 c2.
    assert (Hh : a / 3600000 = b / 3600000).
    { apply pad2_inj; [zdiv|zdiv|]. unfold pad2. now rewrite h1, h2. }
    assert (Hm : a / 60000 mod 60 = b / 60000 mod 60).
    { apply pad2_inj; [zdiv|zdiv|]. unfold pad2. now rewrite m1, m2. }
    assert (Hs : a / 1000 mod 60 = b / 1000 mod 60).
    { apply pad2_inj; [zdiv|zdiv|]. unfold pad2. now rewrite s1, s2. }
    assert (Hc : a mod 1000 / 10 = b mod 1000 / 10).
    { apply pad2_inj; [zdiv|zdiv|]. unfold pad2. now rewrite c1, c2. }
    clear -Ha Hb Hh Hm Hs Hc. zdiv.
  - intros H.
    replace (a / 3600000) with (b / 3600000) by (clear -Ha Hb H; zdiv).
    replace (a / 60000 mod 60) with (b / 60000 mod 60) by (clear -Ha Hb H; zdiv).
    replace (a / 1000 mod 60) with (b / 1000 mod 60) by (clear -Ha Hb H; zdiv).
    replace (a mod 1000 / 10) with (b mod 1000 / 10) by (clear -Ha Hb H; zdiv).
    reflexivity.
Qed.

(** ** The crawl controller, continued *)

Lemma effect_bind {A B} (c : M A) (k : A -> M B) w docs1 docs2 :
  effect w (c w) docs1 ->
  (forall a w1, c w = Val a w1 -> effect w1 (k a w1) docs2) ->
  (forall e w1, c w = Exn e w1 -> docs2 = []) ->
  effect w (bind c k w) (docs1 ++ docs2).
Proof.
  unfold bind. intros Hc Hk He.
  destruct (c w) as [a w1|e w1|]; [| |exact I].
  - destruct Hc as (Hn & Hcl & Hcons & Hd).
    eapply effect_step; eauto.
  - rewrite (He e w1 eq_refl), app_nil_r. exact Hc.
Qed.

Lemma effect_trans {A B} (w w1 : World) (a : A) (r : Res B) docs1 docs2 :
  effect w (Val a w1) docs1 -> effect w1 r docs2 -> effect w r (docs1 ++ docs2).
Proof. intros (Hn & Hc & He & Hd). now apply effect_step. Qed.

Lemma events_count_effect fuel this owner repo w :
  effect w (events_count fuel this owner repo w) [].
Proof.
  unfold events_count.
  pose proof (wrapper_effect (list_events (octokit this) owner (Repo.name repo))
                fuel retries_default w) as H.
  destruct (requestWrapper fuel _ retries_default w) as [ev w'|err w'|]; simpl in *; auto.
  destruct err; simpl; auto.
Qed.

Lemma with_events_effect fuel this owner rawRepos :
  forall repos w, effect w (with_events fuel this owner rawRepos repos w) [].
Proof.
  induction rawRepos as [|repo rest IH]; intros repos w.
  - now apply effect_refl.
  - simpl. change (@nil ScrapingResult.t) with (@nil ScrapingResult.t ++ []).
    apply effect_bind; [apply events_count_effect| |reflexivity].
    intros n w1 _. apply IH.
Qed.

Lemma this_eta (this : t) :
  set_organizations (organizations this ++ []) this = this.
Proof. destruct this. unfold set_organizations. simpl. now rewrite app_nil_r. Qed.

(** What one candidate leaves behind, however it ends: at most one
    organization appended, written to the file as it is appended. *)
Lemma scrape_organization_writes fuel organization this w :
  exists added,
    (length added <= 1)%nat /\
    effect w (scrape_organization fuel organization this w)
      (map (checkpoint_with this) (prefixes added)) /\
    match scrape_organization fuel organization this w with
    | Val this' _ => this' = set_organizations (organizations this ++ added) this
    | Exn _ _ => added = []
    | Diverge => True
    end.
Proof.
  unfold scrape_organization. destruct (known this organization).
  { exists []. split; [simpl; lia|]. split; [now apply effect_refl|].
    simpl. symmetry. apply this_eta. }
  unfold bind.
  pose proof (wrapper_effect (list_repos (octokit this) (SearchItem.login organization))
                fuel retries_default w) as H1.
  destruct (requestWrapper fuel (list_repos _ _) retries_default w)
    as [rawRepos w1|err w1|]; [|exists []; simpl; auto..].
  destruct (length rawRepos =? 0)%nat.
  { exists []. split; [simpl; lia|]. split; [exact H1|]. symmetry. apply this_eta. }
  pose proof (wrapper_effect (get_user (octokit this) (SearchItem.login organization))
                fuel retries_default w1) as H2.
  destruct (requestWrapper fuel (get_user _ _) retries_default w1)
    as [publicUser w2|err w2|].
  2:{ exists []. split; [simpl; lia|]. split; [|reflexivity].
      exact (effect_trans w w1 rawRepos (Exn err w2) [] [] H1 H2). }
  2:{ exists []. simpl. auto. }
  pose proof (with_events_effect fuel this (SearchItem.login organization)
                rawRepos [] w2) as H3.
  pose proof (effect_trans w w1 rawRepos (Val publicUser w2) [] [] H1 H2) as H12.
  destruct (with_events fuel this _ rawRepos [] w2) as [repos w3|err w3|].
  2:{ exists []. split; [simpl; lia|]. split; [|reflexivity].
      exact (effect_trans w w2 publicUser (Exn err w3) [] [] H12 H3). }
  2:{ exists []. simpl. auto. }
  pose proof (effect_trans w w2 publicUser (Val repos w3) [] [] H12 H3) as H123.
  exists [make_org publicUser repos]. split; [simpl; lia|]. split; [|reflexivity].
  refine (effect_trans w w3 repos _ [] _ H123 _). simpl.
  repeat split; [lia|lia|eexists; reflexivity].
Qed.

Lemma prefixes_app {A} (a b : list A) :
  prefixes (a ++ b) = prefixes a ++ map (app a) (prefixes b).
Proof.
  induction a as [|x a IH]; simpl.
  - now rewrite map_id.
  - rewrite IH, map_app, map_map. reflexivity.
Qed.

Lemma checkpoint_with_appended this added pre :
  checkpoint_with (set_organizations (organizations this ++ added) this) pre
  = checkpoint_with this (added ++ pre).
Proof. unfold checkpoint_with. simpl. now rewrite app_assoc. Qed.

Lemma set_organizations_twice this a b :
  set_organizations
    (organizations (set_organizations (organizations this ++ a) this) ++ b)
    (set_organizations (organizations this ++ a) this)
  = set_organizations (organizations this ++ (a ++ b)) this.
Proof. unfold set_organizations. simpl. now rewrite app_assoc. Qed.

Lemma scrape_page_writes fuel items : forall this w,
  exists added,
    effect w (scrape_page fuel items this w)
      (map (checkpoint_with this) (prefixes added)) /\
    match scrape_page fuel items this w with
    | Val this' _ => this' = set_organizations (organizations this ++ added) this
    | _ => True
    end.
Proof.
  induction items as [|i items IH]; intros this w.
  - exists []. split; [now apply effect_refl|]. simpl. symmetry. apply this_eta.
  - simpl.
    destruct (scrape_organization_writes fuel i this w) as (a1 & _ & Heff & Hres).
    unfold bind.
    destruct (scrape_organization fuel i this w) as [this1 w1|err w1|] eqn:E.
    + subst this1.
      destruct (IH (set_organizations (organizations this ++ a1) this) w1)
        as (a2 & Heff2 & Hres2).
      exists (a1 ++ a2). split.
      * rewrite prefixes_app, map_app, map_map.
        refine (effect_trans w w1 _ _ _ _ Heff _).
        erewrite map_ext; [exact Heff2|].
        intros pre. symmetry. apply checkpoint_with_appended.
      * destruct (scrape_page fuel items _ w1); auto.
        rewrite Hres2. apply set_organizations_twice.
    + exists a1. split; [exact Heff|exact I].
    + exists []. split; exact I.
Qed.

(** X11: while a page is processed, whether to its end or up to an error,
    the documents written to the file are the checkpoints of the state with,
    in turn, one more of the appended organizations, and nothing else: each
    organization is written as soon as it is appended.  When the page ends,
    the object holds the organizations it had followed by the appended ones,
    and as many documents were written as organizations appended. *)
Theorem page_persists_each_organization fuel items this w :
  exists added,
    effect w (scrape_page fuel items this w)
      (map (checkpoint_with this) (prefixes added)) /\
    forall this' w',
      scrape_page fuel items this w = Val this' w' ->
      this' = set_organizations (organizations this ++ added) this /\
      disk w' = disk w ++ map (checkpoint_with this) (prefixes added) /\
      length (map (checkpoint_with this) (prefixes added)) = length added.
Proof.
  destruct (scrape_page_writes fuel items this w) as (added & Heff & Hres).
  exists added. split; [exact Heff|].
  intros this' w' H. rewrite H in Heff, Hres. split; [exact Hres|].
  split; [apply Heff|].
  rewrite length_map. clear. induction added as [|x l IH]; simpl; [reflexivity|].
  now rewrite length_map, IH.
Qed.

Lemma turn_checkpoint_with this pre :
  turn_checkpoint this (checkpoint_with this pre).
Proof. split; [exists pre; reflexivity|]. left. simpl. auto. Qed.

(** X12: every checkpoint written in a turn of the loop, finished or cut
    short by an error, extends the organizations the turn started with and
    carries either the current date with the current or the next cursor, or
    the date of the week before with the cursor 1. *)
Theorem turn_writes_consistent_checkpoints fuel this w :
  exists docs,
    effect w (iteration fuel this w) docs /\ Forall (turn_checkpoint this) docs.
Proof.
  unfold iteration, bind.
  pose proof (wrapper_effect (page_request this) fuel retries_default w) as H1.
  destruct (requestWrapper fuel (page_request this) retries_default w)
    as [orgs w1|err w1|]; [|exists []; split; [exact H1|constructor]
                           |exists []; split; [exact I|constructor]].
  destruct (length (SearchData.items orgs) =? 0)%nat.
  - eexists. split.
    + refine (effect_trans w w1 orgs _ [] _ H1 _). simpl.
      repeat split; [lia|lia|exists []; now rewrite app_nil_r].
    + simpl. constructor; [|constructor].
      split; [exists []; simpl; now rewrite app_nil_r|]. right. simpl. auto.
  - destruct (scrape_page_writes fuel (SearchData.items orgs) this w1)
      as (added & Heff & Hres).
    destruct (scrape_page fuel (SearchData.items orgs) this w1) as [this1 w2|err w2|].
    + subst this1.
      pose proof (effect_trans w w1 orgs _ [] _ H1 Heff) as H12.
      eexists. split.
      * refine (effect_trans w w2 _ _ _ _ H12 _). simpl.
        repeat split; [lia|lia|exists []; now rewrite app_nil_r].
      * simpl. apply List.Forall_app. split.
        -- apply List.Forall_forall. intros doc Hin. apply in_map_iff in Hin as (pre & <- & _).
           apply turn_checkpoint_with.
        -- constructor; [|constructor].
           split; [exists added; reflexivity|]. left. simpl. auto.
    + eexists. split.
      * exact (effect_trans w w1 orgs _ [] _ H1 Heff).
      * simpl. apply List.Forall_forall. intros doc Hin.
        apply in_map_iff in Hin as (pre & <- & _). apply turn_checkpoint_with.
    + exists []. split; [exact I|constructor].
Qed.

Lemma readFile_checkpoint this this' w :
  same_crawl this this' ->
  Startup.readFile (Some (checkpoint this')) this w = this'.
Proof.
  intros (H1 & H2 & H3 & H4 & H5). destruct this, this'. simpl in *. subst.
  reflexivity.
Qed.

Lemma iteration_in_sync fuel this w this' w' :
  iteration fuel this w = Val this' w' -> in_sync this' w'.
Proof.
  unfold iteration, bind, in_sync.
  destruct (requestWrapper fuel (page_request this) retries_default w)
    as [orgs w1|err w1|]; try discriminate.
  destruct (length (SearchData.items orgs) =? 0)%nat.
  - intros H. inversion H; subst. simpl. apply last_snoc.
  - destruct (scrape_page fuel (SearchData.items orgs) this w1) as [this1 w2|err w2|];
      try discriminate.
    intros H. inversion H; subst. simpl. apply last_snoc.
Qed.

(** X13: when a turn of the loop ends, the document written last is the
    checkpoint of the object, and [readFile] on that document gives the object
    back; in general the checkpoint of what [readFile] builds from a document
    is that document. *)
Theorem resume_after_turn fuel this w this' w' :
  iteration fuel this w = Val this' w' ->
  last (disk w') = Some (checkpoint this') /\
  (forall w'', Startup.readFile (last (disk w')) this w'' = this') /\
  (forall doc this0 w'', checkpoint (Startup.readFile (Some doc) this0 w'') = doc).
Proof.
  intros H. pose proof (iteration_in_sync _ _ _ _ _ H) as Hs. unfold in_sync in Hs.
  split; [exact Hs|]. split.
  - intros w''. rewrite Hs. apply readFile_checkpoint.
    apply (iteration_effect _ _ _ _ _ H).
  - intros [p d o] this0 w''. reflexivity.
Qed.

Lemma resume_after_turn_witness :
  last (disk (write (ScrapingResult.Make 1 "2020-02-26" [acme_org]) (called w0)))
  = Some (ScrapingResult.Make 1 "2020-02-26" [acme_org]) /\
  Startup.readFile
    (last (disk (write (ScrapingResult.Make 1 "2020-02-26" [acme_org]) (called w0))))
    (demo 5 [acme_org]) w0
  = Scraper.Make demo_octokit "type:org" "result.json" 1 "2020-02-26"
      [acme_org] 3 "2019-10-01T08:00:00Z".
Proof.
  pose proof (resume_after_turn 2 (demo 5 [acme_org]) w0
                (Scraper.Make demo_octokit "type:org" "result.json" 1 "2020-02-26"
                   [acme_org] 3 "2019-10-01T08:00:00Z")
                (write (ScrapingResult.Make 1 "2020-02-26" [acme_org]) (called w0))
                eq_refl) as (H1 & H2 & _).
  split; [exact H1|exact (H2 w0)].
Defined.

Lemma run_effect_state turns : forall fuel this w this' w',
  run turns fuel this w = Val this' w' ->
  same_crawl this this' /\
  exists added, organizations this' = organizations this ++ added.
Proof.
  induction turns as [|turns IH]; intros fuel this w this' w' Hrun.
  - simpl in Hrun. destruct (in_window this); [discriminate|].
    inversion Hrun; subst. split; [repeat split|]. exists []. now rewrite app_nil_r.
  - destruct (in_window this) eqn:Hw.
    + rewrite run_unfold in Hrun by exact Hw. unfold bind in Hrun.
      destruct (iteration fuel this w) as [this1 w1|err w1|] eqn:Hit; try discriminate.
      destruct (IH _ _ _ _ _ Hrun) as (Hs2 & added2 & Ho2).
      assert (H1 : same_crawl this this1 /\
                   exists added1, organizations this1 = organizations this ++ added1).
      { split; [apply (iteration_effect _ _ _ _ _ Hit)|].
        revert Hit. unfold iteration, bind.
        destruct (requestWrapper fuel (page_request this) retries_default w)
          as [orgs w0'|err w0'|]; try discriminate.
        destruct (length (SearchData.items orgs) =? 0)%nat.
        - intros H. inversion H; subst. exists []. simpl. now rewrite app_nil_r.
        - destruct (scrape_page fuel (SearchData.items orgs) this w0')
            as [this2 w2|err w2|] eqn:Hp; try discriminate.
          intros H. inversion H; subst. simpl.
          destruct (scrape_page_effect _ _ _ _ _ _ Hp) as (_ & _ & _ & added & Ho & _).
          eauto. }
      destruct H1 as (Hs1 & added1 & Ho1). split.
      * destruct Hs1 as (a1 & a2 & a3 & a4 & a5). destruct Hs2 as (b1 & b2 & b3 & b4 & b5).
        repeat split; congruence.
      * exists (added1 ++ added2). now rewrite Ho2, Ho1, app_assoc.
    + rewrite run_finished in Hrun by exact Hw. inversion Hrun; subst.
      split; [repeat split|]. exists []. now rewrite app_nil_r.
Qed.

(** X14: a run that ends leaves the client, the query, the result location
    and the two values of the bootstrap as they were, has only appended to the
    organizations, and ends outside the window. *)
Theorem run_only_appends turns fuel this w this' w' :
  run turns fuel this w = Val this' w' ->
  same_crawl this this' /\ in_window this' = false /\
  exists added, organizations this' = organizations this ++ added.
Proof.
  intros Hrun. destruct (run_effect_state _ _ _ _ _ _ Hrun) as (Hs & Ha).
  split; [exact Hs|]. split; [|exact Ha].
  revert fuel this w Hrun Hs Ha.
  induction turns as [|turns IH]; intros fuel this w Hrun _ _.
  - simpl in Hrun. destruct (in_window this) eqn:E; [discriminate|].
    inversion Hrun; subst. exact E.
  - destruct (in_window this) eqn:Hw.
    + rewrite run_unfold in Hrun by exact Hw. unfold bind in Hrun.
      destruct (iteration fuel this w) as [this1 w1|err w1|] eqn:Hit; try discriminate.
      destruct (run_effect_state _ _ _ _ _ _ Hrun) as (Hs & Ha).
      exact (IH _ _ _ Hrun Hs Ha).
    + rewrite run_finished in Hrun by exact Hw. inversion Hrun; subst. exact Hw.
Qed.

Lemma run_only_appends_witness :
  same_crawl
    (Scraper.Make demo_octokit "type:org" "result.json" 5 "2019-10-02"
       [acme_org] 3 "2019-10-01T08:00:00Z")
    (Scraper.Make demo_octokit "type:org" "result.json" 1 "2019-09-25"
       [acme_org] 3 "2019-10-01T08:00:00Z") /\
  in_window (Scraper.Make demo_octokit "type:org" "result.json" 1 "2019-09-25"
               [acme_org] 3 "2019-10-01T08:00:00Z") = false /\
  exists added, [acme_org] = [acme_org] ++ added.
Proof.
  exact (run_only_appends 1 2
           (Scraper.Make demo_octokit "type:org" "result.json" 5 "2019-10-02"
              [acme_org] 3 "2019-10-01T08:00:00Z") w0
           (Scraper.Make demo_octokit "type:org" "result.json" 1 "2019-09-25"
              [acme_org] 3 "2019-10-01T08:00:00Z")
           (log (LogFinished 1600000000000)
              (write (ScrapingResult.Make 1 "2019-09-25" [acme_org]) (called w0)))
           eq_refl).
Defined.

Lemma known_false_not_in this organization :
  known this organization = false -> ~ In (SearchItem.login organization) (logins this).
Proof.
  intros Hk Hin. unfold logins in Hin. apply in_map_iff in Hin as (o & Ho & Hin).
  assert (known this organization = true); [|congruence].
  apply known_iff. exists o. auto.
Qed.

Lemma scrape_organization_distinct fuel organization this w this' w' :
  faithful_profiles (octokit this) -> List.NoDup (logins this) ->
  scrape_organization fuel organization this w = Val this' w' ->
  List.NoDup (logins this').
Proof.
  intros Hf Hnd Hs.
  destruct (scrape_organization_effect _ _ _ _ _ _ Hs)
    as [[-> _]|(u & repos & n & h & Hk & Hu & -> & _)]; [exact Hnd|].
  unfold logins. simpl. rewrite map_app. simpl.
  apply List.NoDup_rev in Hnd. rewrite <- (rev_involutive (_ ++ _)).
  apply List.NoDup_rev. rewrite rev_app_distr. simpl. constructor; [|exact Hnd].
  rewrite <- in_rev. rewrite (Hf _ _ _ _ Hu). now apply known_false_not_in.
Qed.

Lemma scrape_page_distinct fuel items : forall this w this' w',
  faithful_profiles (octokit this) -> List.NoDup (logins this) ->
  scrape_page fuel items this w = Val this' w' ->
  List.NoDup (logins this').
Proof.
  induction items as [|i items IH]; intros this w this' w' Hf Hnd H.
  - inversion H; subst. exact Hnd.
  - simpl in H. unfold bind in H.
    destruct (scrape_organization fuel i this w) as [this1 w1|err w1|] eqn:Hs;
      try discriminate.
    apply (IH this1 w1 this' w'); [|eapply scrape_organization_distinct; eauto|exact H].
    destruct (scrape_organization_effect _ _ _ _ _ _ Hs)
      as [[-> _]|(u & repos & n & h & _ & _ & -> & _)]; exact Hf.
Qed.

(** X15: with a remote API that answers a profile request with the profile
    asked for, a run that starts with pairwise distinct logins ends with
    pairwise distinct logins. *)
Theorem logins_stay_distinct turns : forall fuel this w this' w',
  faithful_profiles (octokit this) -> List.NoDup (logins this) ->
  run turns fuel this w = Val this' w' ->
  List.NoDup (logins this').
Proof.
  induction turns as [|turns IH]; intros fuel this w this' w' Hf Hnd Hrun.
  - simpl in Hrun. destruct (in_window this); [discriminate|].
    inversion Hrun; subst. exact Hnd.
  - destruct (in_window this) eqn:Hw.
    + rewrite run_unfold in Hrun by exact Hw. unfold bind in Hrun.
      destruct (iteration fuel this w) as [this1 w1|err w1|] eqn:Hit; try discriminate.
      destruct (iteration_effect _ _ _ _ _ Hit) as [(Ho & _) _].
      apply (IH fuel this1 w1 this' w'); [now rewrite Ho| |exact Hrun].
      revert Hit. unfold iteration, bind.
      destruct (requestWrapper fuel (page_request this) retries_default w)
        as [orgs w0'|err w0'|]; try discriminate.
      destruct (length (SearchData.items orgs) =? 0)%nat.
      * intros H. inversion H; subst. exact Hnd.
      * destruct (scrape_page fuel (SearchData.items orgs) this w0')
          as [this2 w2|err w2|] eqn:Hp; try discriminate.
        intros H. inversion H; subst.
        apply (scrape_page_distinct _ _ _ _ _ _ Hf Hnd Hp).
    + rewrite run_finished in Hrun by exact Hw. inversion Hrun; subst. exact Hnd.
Qed.

Lemma logins_stay_distinct_witness :
  List.NoDup (logins (Scraper.Make demo_octokit "type:org" "result.json" 1 "2019-09-25"
                   [acme_org] 3 "2019-10-01T08:00:00Z")).
Proof.
  refine (logins_stay_distinct 1 2
            (Scraper.Make demo_octokit "type:org" "result.json" 5 "2019-10-02"
               [acme_org] 3 "2019-10-01T08:00:00Z") w0
            (Scraper.Make demo_octokit "type:org" "result.json" 1 "2019-09-25"
               [acme_org] 3 "2019-10-01T08:00:00Z")
            (log (LogFinished 1600000000000)
               (write (ScrapingResult.Make 1 "2019-09-25" [acme_org]) (called w0)))
            demo_faithful _ ltac:(vm_compute; reflexivity)).
  constructor; [intros []|constructor].
Defined.

(** X16: when every search comes back empty the crawl ends: with one turn
    for every seven days between the date and the creation of the oldest
    organization, [run] returns, outside the window, with the organizations it
    started with and at most one checkpoint written per turn. *)
Theorem crawl_ends_when_nobody_is_found (turns : nat) :
  forall fuel this w c t,
    finds_nobody (octokit this) ->
    parse_civil (date this) = Some c ->
    parse_instant (oldestOrgDate this) = Some t ->
    valueOf c - t <= Z.of_nat turns * (7 * ms_per_day) ->
    exists this' w',
      run turns (S fuel) this w = Val this' w' /\
      in_window this' = false /\
      organizations this' = organizations this /\
      (length (disk w') <= length (disk w) + turns)%nat.
Proof.
  induction turns as [|turns IH]; intros fuel this w c t Hnobody Hc Ht Hm.
  - assert (Hw : in_window this = false).
    { unfold in_window, isAfter. rewrite Hc, Ht. rewrite Z.gtb_ltb. apply Z.ltb_ge. lia. }
    exists this, (log (LogFinished (now w)) w).
    rewrite run_finished by exact Hw. repeat split; auto. simpl. lia.
  - destruct (in_window this) eqn:Hw.
    2:{ exists this, (log (LogFinished (now w)) w).
        rewrite run_finished by exact Hw. repeat split; auto. simpl. lia. }
    destruct (Hnobody (baseQuery this +:+ " " +:+ "created:" +:+ getPreviousWeek (date this)
                       +:+ ".." +:+ date this)
                None None (Some (nextPageToScrape this)) (Some 100) (calls w))
      as (total & hdrs & Hreq).
    assert (Hpage : requestWrapper (S fuel) (page_request this) retries_default w
                    = Val (SearchData.Make [] total) (called w)).
    { rewrite wrapper_unfold. unfold page_request. rewrite Hreq. reflexivity. }
    set (this1 := set_nextPageToScrape 1 (set_date (getPreviousWeek (date this)) this)).
    assert (Hit : iteration (S fuel) this w = Val this1 (write (checkpoint this1) (called w))).
    { unfold iteration. rewrite (bind_val _ _ _ _ _ Hpage). reflexivity. }
    rewrite run_unfold by exact Hw. rewrite (bind_val _ _ _ _ _ Hit).
    destruct (in_window this1) eqn:Hw1.
    + destruct (in_window_parses this1 Hw1) as [c1 Hc1].
      assert (Hd1 : days_from_civil c1 = days_from_civil c - 7).
      { subst this1. simpl in Hc1. rewrite (getPreviousWeek_parsed _ _ Hc) in Hc1.
        rewrite (parse_format_inv _ _ (civil_from_days_valid _) Hc1).
        apply days_from_civil_from_days. }
      destruct (IH fuel this1 (write (checkpoint this1) (called w)) c1 t)
        as (this' & w' & Hrun & Hout & Horgs & Hlen); auto.
      { unfold valueOf in *. rewrite Hd1. unfold ms_per_day in *. lia. }
      exists this', w'. split; [exact Hrun|]. split; [exact Hout|].
      split; [exact Horgs|]. simpl in Hlen. rewrite length_app in Hlen. simpl in Hlen. lia.
    + exists this1, (log (LogFinished (now (write (checkpoint this1) (called w))))
                       (write (checkpoint this1) (called w))).
      rewrite run_finished by exact Hw1. repeat split; auto.
      simpl. rewrite length_app. simpl. lia.
Qed.

Lemma crawl_ends_when_nobody_is_found_witness :
  exists this' w',
    run 5 1 (Scraper.Make empty_octokit "type:org" "result.json" 3 "2020-03-04" []
               0 "2020-02-01T00:00:00Z") w0 = Val this' w' /\
    in_window this' = false /\
    organizations this' = [] /\
    (length (disk w') <= length (disk w0) + 5)%nat.
Proof.
  refine (crawl_ends_when_nobody_is_found 5 0
            (Scraper.Make empty_octokit "type:org" "result.json" 3 "2020-03-04" []
               0 "2020-02-01T00:00:00Z") w0 (Civil 2020 3 4) 1580515200000
            _ eq_refl eq_refl ltac:(vm_compute; discriminate)).
  intros q sort order page per_page n. exists 0, ∅. reflexivity.
Defined.

Lemma events_count_nonneg fuel this owner repo w n w' :
  events_count fuel this owner repo w = Val n w' -> 0 <= n.
Proof.
  unfold events_count.
  destruct (requestWrapper fuel _ retries_default w) as [ev w1|err w1|]; try discriminate.
  - intros H. inversion H. lia.
  - destruct err; try discriminate. intros H. inversion H. lia.
Qed.

Lemma with_events_shape fuel this owner rawRepos : forall repos w all w',
  with_events fuel this owner rawRepos repos w = Val all w' ->
  exists more,
    all = repos ++ more /\ map RepoWithEvents.repo more = rawRepos /\
    Forall (fun r => 0 <= RepoWithEvents.last_90_days_events_count r) more.
Proof.
  induction rawRepos as [|repo rest IH]; intros repos w all w' H.
  - inversion H. exists []. rewrite app_nil_r. repeat split. constructor.
  - simpl in H. unfold bind in H.
    destruct (events_count fuel this owner repo w) as [n w1|err w1|] eqn:E;
      try discriminate.
    destruct (IH _ _ _ _ H) as (more & -> & Hm & Hf).
    exists (RepoWithEvents.Make repo n :: more). rewrite <- app_assoc.
    split; [reflexivity|]. split; [simpl; now rewrite Hm|].
    constructor; [|exact Hf]. simpl. eapply events_count_nonneg; eauto.
Qed.

Lemma sum_of_nonneg field repos :
  Forall (fun r => 0 <= field r) repos -> 0 <= sum_of field repos.
Proof.
  induction 1 as [|r l Hr _ IH]; unfold sum_of in *; simpl; lia.
Qed.

(** X18: when the events of an organization's repositories have been
    fetched, there is one record per repository, in the order of the list,
    each with a count that is not negative (0 for a blocked repository), so
    the total of recent events is not negative; nothing was written to the
    file. *)
Theorem events_counted_per_repository fuel this owner rawRepos w all w' :
  with_events fuel this owner rawRepos [] w = Val all w' ->
  map RepoWithEvents.repo all = rawRepos /\
  Forall (fun r => 0 <= RepoWithEvents.last_90_days_events_count r) all /\
  0 <= totalRepoLast90DaysEvents all /\
  disk w' = disk w.
Proof.
  intros H. destruct (with_events_shape _ _ _ _ _ _ _ _ H) as (more & -> & Hm & Hf).
  simpl. split; [exact Hm|]. split; [exact Hf|]. split.
  - unfold totalRepoLast90DaysEvents.
    rewrite (reduce_sum RepoWithEvents.last_90_days_events_count).
    pose proof (sum_of_nonneg _ _ Hf). lia.
  - pose proof (with_events_keeps_disk fuel this owner rawRepos [] w) as Hk.
    now rewrite H in Hk.
Qed.

Lemma events_counted_per_repository_witness :
  map RepoWithEvents.repo [RepoWithEvents.Make repo_a 3; RepoWithEvents.Make repo_b 0]
  = [repo_a; repo_b] /\
  0 <= totalRepoLast90DaysEvents
         [RepoWithEvents.Make repo_a 3; RepoWithEvents.Make repo_b 0].
Proof.
  pose proof (events_counted_per_repository 3 (demo 1 []) "acme" [repo_a; repo_b] w0
                [RepoWithEvents.Make repo_a 3; RepoWithEvents.Make repo_b 0]
                (called (called w0)) ltac:(vm_compute; reflexivity)) as (H1 & _ & H2 & _).
  split; [exact H1|exact H2].
Defined.

Lemma sum_of_app field a b : sum_of field (a ++ b) = sum_of field a + sum_of field b.
Proof.
  unfold sum_of. induction a as [|x a IH]; simpl; [reflexivity|]. rewrite IH. lia.
Qed.

Lemma sum_of_perm field a b : Permutation a b -> sum_of field a = sum_of field b.
Proof.
  unfold sum_of. induction 1; simpl; lia.
Qed.

Lemma totals_as_sums repos :
  totalRepoStars repos = sum_of stars repos /\
  totalRepoWatchers repos = sum_of watchers repos /\
  totalRepoForks repos = sum_of forks repos /\
  totalRepoOpenIssues repos = sum_of open_issues repos /\
  totalRepoLast90DaysEvents repos
  = sum_of RepoWithEvents.last_90_days_events_count repos.
Proof.
  unfold totalRepoStars, totalRepoWatchers, totalRepoForks, totalRepoOpenIssues,
    totalRepoLast90DaysEvents.
  repeat split.
  - apply (reduce_sum stars).
  - apply (reduce_sum watchers).
  - apply (reduce_sum forks).
  - apply (reduce_sum open_issues).
  - apply (reduce_sum RepoWithEvents.last_90_days_events_count).
Qed.

(** X19: the organization assembled from a profile and its repositories
    does not depend on the order of the repositories. *)
Theorem enrichment_ignores_repository_order publicUser repos repos' :
  Permutation repos repos' ->
  make_org publicUser repos = make_org publicUser repos'.
Proof.
  intros Hp. unfold make_org.
  destruct (totals_as_sums repos) as (a1 & a2 & a3 & a4 & a5).
  destruct (totals_as_sums repos') as (b1 & b2 & b3 & b4 & b5).
  rewrite a1, a2, a3, a4, a5, b1, b2, b3, b4, b5.
  now rewrite (sum_of_perm stars _ _ Hp), (sum_of_perm watchers _ _ Hp),
    (sum_of_perm forks _ _ Hp), (sum_of_perm open_issues _ _ Hp),
    (sum_of_perm RepoWithEvents.last_90_days_events_count _ _ Hp).
Qed.

Lemma enrichment_ignores_repository_order_witness :
  make_org (profile "acme") [RepoWithEvents.Make repo_a 3; RepoWithEvents.Make repo_b 0]
  = make_org (profile "acme") [RepoWithEvents.Make repo_b 0; RepoWithEvents.Make repo_a 3].
Proof.
  exact (enrichment_ignores_repository_order (profile "acme") _ _
           (perm_swap (RepoWithEvents.Make repo_b 0) (RepoWithEvents.Make repo_a 3) [])).
Defined.

(** X20: each of the five totals of two lists of repositories put together
    is the sum of the totals of the two lists. *)
Theorem totals_add_up a b :
  totalRepoStars (a ++ b) = totalRepoStars a + totalRepoStars b /\
  totalRepoWatchers (a ++ b) = totalRepoWatchers a + totalRepoWatchers b /\
  totalRepoForks (a ++ b) = totalRepoForks a + totalRepoForks b /\
  totalRepoOpenIssues (a ++ b) = totalRepoOpenIssues a + totalRepoOpenIssues b /\
  totalRepoLast90DaysEvents (a ++ b)
  = totalRepoLast90DaysEvents a + totalRepoLast90DaysEvents b.
Proof.
  destruct (totals_as_sums (a ++ b)) as (c1 & c2 & c3 & c4 & c5).
  destruct (totals_as_sums a) as (a1 & a2 & a3 & a4 & a5).
  destruct (totals_as_sums b) as (b1 & b2 & b3 & b4 & b5).
  rewrite c1, c2, c3, c4, c5, a1, a2, a3, a4, a5, b1, b2, b3, b4, b5.
  rewrite !sum_of_app. repeat split.
Qed.

(** X21: only the events request is guarded: any error of the page
    request, of the repositories request or of the profile request, a
    [RepoBlocked] included, leaves the turn (and [run]) or the enrichment as
    it is; a page request that fails has written nothing. *)
Theorem unguarded_failures_abort fuel this w err w1 :
  (requestWrapper fuel (page_request this) retries_default w = Exn err w1 ->
   iteration fuel this w = Exn err w1 /\
   (in_window this = true -> forall turns, run (S turns) fuel this w = Exn err w1)) /\
  (forall organization,
      known this organization = false ->
      requestWrapper fuel (list_repos (octokit this) (SearchItem.login organization))
        retries_default w = Exn err w1 ->
      scrape_organization fuel organization this w = Exn err w1) /\
  (forall organization rawRepos w0',
      known this organization = false ->
      requestWrapper fuel (list_repos (octokit this) (SearchItem.login organization))
        retries_default w = Val rawRepos w0' ->
      rawRepos <> [] ->
      requestWrapper fuel (get_user (octokit this) (SearchItem.login organization))
        retries_default w0' = Exn err w1 ->
      scrape_organization fuel organization this w = Exn err w1) /\
  (requestWrapper fuel (page_request this) retries_default w = Exn err w1 ->
   disk w1 = disk w).
Proof.
  split; [|split; [|split]].
  - intros H.
    assert (Hit : iteration fuel this w = Exn err w1).
    { unfold iteration. now rewrite (bind_exn _ _ _ _ _ H). }
    split; [exact Hit|]. intros Hw turns. rewrite run_unfold by exact Hw.
    now rewrite (bind_exn _ _ _ _ _ Hit).
  - intros organization Hk H. unfold scrape_organization. rewrite Hk.
    now rewrite (bind_exn _ _ _ _ _ H).
  - intros organization rawRepos w0' Hk Hr Hne Hu.
    unfold scrape_organization. rewrite Hk. rewrite (bind_val _ _ _ _ _ Hr).
    destruct rawRepos as [|r rs]; [congruence|].
    change (length (r :: rs) =? 0)%nat with false. cbv iota.
    now rewrite (bind_exn _ _ _ _ _ Hu).
  - intros H. pose proof (requestWrapper_keeps_disk (page_request this) fuel
                            retries_default w) as Hk.
    now rewrite H in Hk.
Qed.

(** ** Starting up *)

Example ex_setup_demo :
  match Startup.setup 2 listed_octokit "type:org" "result.json" None w0 with
  | Val this _ =>
      this = Scraper.Make listed_octokit "type:org" "result.json" 1 "2020-09-13" []
               2 "2019-10-01T08:00:00Z"
  | _ => False
  end.
Proof. vm_compute. reflexivity. Qed.

(** X22: when the executor of [ready] returns, the total and the creation
    date it stored are those of a search sorted by join date in ascending
    order and of the profile of the first organization found; the cursor, the
    date and the organizations are as they were, at least two requests were
    issued and nothing was written to the file. *)
Theorem bootstrap_reads_the_oldest fuel this w this' w' :
  Startup.readyPromise fuel this w = Val this' w' ->
  (exists found oldestOrg others publicUser n1 h1 n2 h2,
      search_users (octokit this) (baseQuery this) (Some "joined") (Some "asc")
        None None n1 = Ok found h1 /\
      SearchData.items found = oldestOrg :: others /\
      get_user (octokit this) (SearchItem.login oldestOrg) n2 = Ok publicUser h2 /\
      totalCount this' = SearchData.total_count found /\
      oldestOrgDate this' = PublicUser.created_at publicUser) /\
  checkpoint this' = checkpoint this /\
  octokit this' = octokit this /\ baseQuery this' = baseQuery this /\
  disk w' = disk w /\ (calls w + 2 <= calls w')%nat.
Proof.
  unfold Startup.readyPromise, bind.
  pose proof (requestWrapper_keeps_disk
                (search_users (octokit this) (baseQuery this) (Some "joined")
                   (Some "asc") None None) fuel retries_default w) as Hd1.
  pose proof (wrapper_calls
                (search_users (octokit this) (baseQuery this) (Some "joined")
                   (Some "asc") None None) fuel retries_default w) as Hc1.
  destruct (requestWrapper fuel (search_users _ _ _ _ _ _) retries_default w)
    as [found w1|err w1|] eqn:E1; try discriminate.
  pose proof (requestWrapper_keeps_disk
                (Startup.oldest_request this (SearchData.items found))
                fuel retries_default w1) as Hd2.
  pose proof (wrapper_calls
                (Startup.oldest_request this (SearchData.items found))
                fuel retries_default w1) as Hc2.
  destruct (requestWrapper fuel (Startup.oldest_request _ _) retries_default w1)
    as [publicUser w2|err w2|] eqn:E2; try discriminate.
  intros H. inversion H; subst. clear H.
  destruct (requestWrapper_val _ _ _ _ _ _ E1) as (n1 & h1 & Hn1).
  destruct (requestWrapper_val _ _ _ _ _ _ E2) as (n2 & h2 & Hn2).
  split.
  - destruct (SearchData.items found) as [|oldestOrg others] eqn:Hi;
      [discriminate Hn2|].
    exists found, oldestOrg, others, publicUser, n1, h1, n2, h2. simpl. auto.
  - simpl in *. repeat split; [congruence|lia].
Qed.

Lemma bootstrap_reads_the_oldest_witness :
  totalCount (Scraper.Make listed_octokit "type:org" "result.json" 1 "2020-03-04" []
                2 "2019-10-01T08:00:00Z") = 2 /\
  disk (called (called w0)) = disk w0.
Proof.
  pose proof (bootstrap_reads_the_oldest 2
                (Scraper.Make listed_octokit "type:org" "result.json" 1 "2020-03-04" []
                   0 EmptyString) w0
                (Scraper.Make listed_octokit "type:org" "result.json" 1 "2020-03-04" []
                   2 "2019-10-01T08:00:00Z")
                (called (called w0)) ltac:(vm_compute; reflexivity))
    as (_ & _ & _ & _ & Hd & _).
  split; [reflexivity|exact Hd].
Defined.

(** X23: when the bootstrap search finds nobody, the closure of the profile
    request throws a [TypeError] each time the governor runs it: the governor
    runs it twice, logs the error and throws it, so the executor never reaches
    [res(true)] and nothing is written to the file. *)
Theorem bootstrap_without_organizations fuel this w found w1 :
  requestWrapper (S (S fuel))
    (search_users (octokit this) (baseQuery this) (Some "joined") (Some "asc") None None)
    retries_default w = Val found w1 ->
  SearchData.items found = [] ->
  Startup.readyPromise (S (S fuel)) this w
  = Exn TypeError (log (LogError TypeError) (called (called w1))) /\
  disk (log (LogError TypeError) (called (called w1))) = disk w.
Proof.
  intros Hs Hi. split.
  - unfold Startup.readyPromise. rewrite (bind_val _ _ _ _ _ Hs), Hi. reflexivity.
  - pose proof (requestWrapper_keeps_disk
                  (search_users (octokit this) (baseQuery this) (Some "joined")
                     (Some "asc") None None) (S (S fuel)) retries_default w) as Hd.
    rewrite Hs in Hd. exact Hd.
Qed.

Lemma bootstrap_without_organizations_witness :
  Startup.readyPromise 2
    (Scraper.Make empty_octokit "type:org" "result.json" 1 "2020-03-04" [] 0 EmptyString)
    w0
  = Exn TypeError (log (LogError TypeError) (called (called (called w0)))).
Proof.
  exact (proj1 (bootstrap_without_organizations 0
                  (Scraper.Make empty_octokit "type:org" "result.json" 1 "2020-03-04" []
                     0 EmptyString)
                  w0 (SearchData.Make [] 0) (called w0) eq_refl eq_refl)).
Defined.

(** What the executor changes when it returns: the two values of the
    bootstrap, and nothing on the file. *)
Lemma readyPromise_state fuel this w this' w' :
  Startup.readyPromise fuel this w = Val this' w' ->
  exists total created,
    this' = Startup.set_oldestOrgDate created (Startup.set_totalCount total this) /\
    disk w' = disk w.
Proof.
  unfold Startup.readyPromise, bind.
  pose proof (requestWrapper_keeps_disk
                (search_users (octokit this) (baseQuery this) (Some "joined")
                   (Some "asc") None None) fuel retries_default w) as Hd1.
  destruct (requestWrapper fuel (search_users _ _ _ _ _ _) retries_default w)
    as [found w1|err w1|]; try discriminate.
  pose proof (requestWrapper_keeps_disk
                (Startup.oldest_request this (SearchData.items found))
                fuel retries_default w1) as Hd2.
  destruct (requestWrapper fuel (Startup.oldest_request _ _) retries_default w1)
    as [publicUser w2|err w2|]; try discriminate.
  intros H. inversion H; subst. simpl in *.
  exists (SearchData.total_count found), (PublicUser.created_at publicUser).
  split; [reflexivity|congruence].
Qed.

(** X24: once [ready] has resolved after [setup], the object holds the
    cursor, the date and the organizations of the stored document, or 1, the
    day of the clock and no organization when there was none to read, along
    with the configuration it was given; nothing was written to the file. *)
Theorem setup_resumes_from_the_file fuel octokit baseQuery resultLocation stored
    w this w' :
  Startup.setup fuel octokit baseQuery resultLocation stored w = Val this w' ->
  checkpoint this
  = match stored with
    | Some result => result
    | None => ScrapingResult.Make 1 (Startup.today w) []
    end /\
  Scraper.octokit this = octokit /\ Scraper.baseQuery this = baseQuery /\
  Scraper.resultLocation this = resultLocation /\
  disk w' = disk w.
Proof.
  unfold Startup.setup. intros H.
  destruct (readyPromise_state _ _ _ _ _ H) as (total & created & -> & Hd).
  split; [destruct stored as [[p d o]|]; reflexivity|].
  repeat (split; [destruct stored; reflexivity|]).
  exact Hd.
Qed.

Lemma in_window_true this c t :
  parse_civil (date this) = Some c -> parse_instant (oldestOrgDate this) = Some t ->
  in_window this = (valueOf c >? t).
Proof. unfold in_window, isAfter. now intros -> ->. Qed.

(** X17: a run that starts inside the window and ends has moved the date
    back by a whole number of weeks, and it ends in the first week that
    reaches the creation of the oldest organization: the final date is not
    after that instant, and the date one week later is. *)
Theorem crawl_stops_at_the_oldest turns : forall fuel this w this' w' c c' t,
  run turns fuel this w = Val this' w' ->
  in_window this = true ->
  parse_civil (date this) = Some c ->
  parse_civil (date this') = Some c' ->
  parse_instant (oldestOrgDate this) = Some t ->
  valueOf c' <= t < valueOf c' + 7 * ms_per_day /\
  exists k : nat, days_from_civil c = days_from_civil c' + 7 * Z.of_nat k.
Proof.
  induction turns as [|turns IH]; intros fuel this w this' w' c c' t Hrun Hw Hc Hc' Ht.
  - simpl in Hrun. rewrite Hw in Hrun. discriminate.
  - rewrite run_unfold in Hrun by exact Hw. unfold bind in Hrun.
    destruct (iteration fuel this w) as [this1 w1|err w1|] eqn:Hit; try discriminate.
    destruct (iteration_effect _ _ _ _ _ Hit) as [Hsame Hcases].
    assert (Ht1 : parse_instant (oldestOrgDate this1) = Some t).
    { destruct Hsame as (_ & _ & _ & _ & Ho). now rewrite Ho. }
    destruct (in_window this1) eqn:Hw1.
    + destruct (in_window_parses this1 Hw1) as [c1 Hc1].
      destruct (IH _ _ _ _ _ c1 c' t Hrun Hw1 Hc1 Hc' Ht1) as (Hb & k & Hk).
      split; [exact Hb|].
      destruct Hcases as [[Hd _]|(Hd & _)].
      * rewrite Hd, Hc in Hc1. inversion Hc1; subst. exists k. exact Hk.
      * rewrite Hd, (getPreviousWeek_parsed _ _ Hc) in Hc1.
        rewrite (parse_format_inv _ _ (civil_from_days_valid _) Hc1) in Hk.
        rewrite days_from_civil_from_days in Hk. exists (S k). lia.
    + rewrite run_finished in Hrun by exact Hw1. inversion Hrun; subst this' w'.
      rewrite (in_window_true _ _ _ Hc Ht) in Hw.
      rewrite (in_window_true _ _ _ Hc' Ht1) in Hw1.
      apply Z.gtb_lt in Hw. rewrite Z.gtb_ltb in Hw1. apply Z.ltb_ge in Hw1.
      destruct Hcases as [[Hd _]|(Hd & _)].
      * rewrite Hd, Hc in Hc'. inversion Hc'; subst. lia.
      * rewrite Hd, (getPreviousWeek_parsed _ _ Hc) in Hc'.
        pose proof (parse_format_inv _ _ (civil_from_days_valid _) Hc') as E.
        assert (Hdays : days_from_civil c' = days_from_civil c - 7)
          by (rewrite E; apply days_from_civil_from_days).
        unfold valueOf in *. rewrite Hdays. unfold ms_per_day in *.
        split; [split; lia|]. exists 1%nat. lia.
Qed.

Lemma crawl_stops_at_the_oldest_witness :
  valueOf (Civil 2020 1 29) <= 1580515200000
  < valueOf (Civil 2020 1 29) + 7 * ms_per_day /\
  exists k : nat,
    days_from_civil (Civil 2020 3 4) = days_from_civil (Civil 2020 1 29) + 7 * Z.of_nat k.
Proof.
  exact (crawl_stops_at_the_oldest 5 1
           (Scraper.Make empty_octokit "type:org" "result.json" 3 "2020-03-04" []
              0 "2020-02-01T00:00:00Z") w0
           (Scraper.Make empty_octokit "type:org" "result.json" 1 "2020-01-29" []
              0 "2020-02-01T00:00:00Z")
           (MkWorld 1600000000000 5 [LogFinished 1600000000000]
              [ScrapingResult.Make 1 "2020-02-26" [];
               ScrapingResult.Make 1 "2020-02-19" [];
               ScrapingResult.Make 1 "2020-02-12" [];
               ScrapingResult.Make 1 "2020-02-05" [];
               ScrapingResult.Make 1 "2020-01-29" []])
           (Civil 2020 3 4) (Civil 2020 1 29) 1580515200000
           ltac:(vm_compute; reflexivity) eq_refl eq_refl eq_refl eq_refl).
Defined.

Lemma setup_resumes_from_the_file_witness :
  checkpoint (Scraper.Make listed_octokit "type:org" "result.json" 4 "2020-02-26"
                [acme_org] 2 "2019-10-01T08:00:00Z")
  = ScrapingResult.Make 4 "2020-02-26" [acme_org] /\
  disk (called (called w0)) = disk w0.
Proof.
  pose proof (setup_resumes_from_the_file 2 listed_octokit "type:org" "result.json"
                (Some (ScrapingResult.Make 4 "2020-02-26" [acme_org])) w0
                (Scraper.Make listed_octokit "type:org" "result.json" 4 "2020-02-26"
                   [acme_org] 2 "2019-10-01T08:00:00Z")
                (called (called w0)) ltac:(vm_compute; reflexivity))
    as (Hck & _ & _ & _ & Hd).
  split; [exact Hck|exact Hd].
Defined.

(** ** The variant that throws on a successful answer without quota *)

Lemma is_string_false o s : is_string o s = false <-> o <> Some s.
Proof.
  rewrite <- is_string_true. destruct (is_string o s); split; congruence.
Qed.

Lemma strict_provenance_later {D} cls (request : nat -> Response D) w w1 r :
  (calls w <= calls w1)%nat ->
  strict_provenance cls request w1 r -> strict_provenance cls request w r.
Proof.
  intros Hle. destruct r as [d w'|e w'|]; simpl; [| |auto].
  - intros (Hlt & H). split; [lia|exact H].
  - intros (Hlt & H). split; [lia|exact H].
Qed.

(** X25: whatever the class [RateLimitError] is, what the variant that throws
    on an exhausted quota returns is the payload of the last request it
    issued, and that answer did not report zero remaining quota: the payload of
    an answer that reports it is never handed to the caller.  What it throws is
    the error of the last request, or the [RateLimitError] built from the last
    answer, and in both cases an error that does not read as an exhausted
    quota: such an error is waited for, never passed on. *)
Theorem strict_governor_provenance {D} (cls : option string -> option ErrorResponse)
    (request : nat -> Response D) fuel :
  forall retries w,
    strict_provenance cls request w (StrictWrapper.requestWrapper cls fuel request retries w).
Proof.
  induction fuel as [|fuel IH]; intros retries w; [exact I|].
  rewrite strict_unfold.
  assert (Hh : forall err,
             (request (calls w) = Throw err \/
              exists d hdrs,
                request (calls w) = Ok d hdrs /\
                hdrs !! "x-ratelimit-remaining" = Some "0" /\
                err = StrictWrapper.new_RateLimitError cls (hdrs !! "x-ratelimit-reset")) ->
             strict_provenance cls request w
               (StrictWrapper.handler (StrictWrapper.requestWrapper cls fuel request)
                  err retries (called w))).
  { intros err Hfrom. rewrite strict_handler_unfold.
    destruct (StrictWrapper.quota_left err) eqn:Hq.
    - destruct (negb (retries =? 0)).
      + apply (strict_provenance_later cls request w (log (LogError err) (called w)));
          [simpl; lia|apply IH].
      + simpl. split; [lia|]. split; [exact Hq|exact Hfrom].
    - apply (strict_provenance_later cls request w
               (StrictWrapper.await_reset err (called w))); [|apply IH].
      destruct (await_reset_frame err (called w)) as (_ & _ & Hc & _).
      rewrite Hc. simpl. lia. }
  destruct (request (calls w)) as [d h|err] eqn:E.
  - destruct (is_string (h !! "x-ratelimit-remaining") "0") eqn:Hz.
    + apply Hh. right. exists d, h. apply is_string_true in Hz. auto.
    + simpl. split; [lia|]. exists h. split; [exact E|]. now apply is_string_false.
  - apply Hh. now left.
Qed.

Lemma exhausted_success_inv {D} cls (r : Response D) left :
  exhausted_success cls r left ->
  exists d hdrs,
    r = Ok d hdrs /\
    is_string (hdrs !! "x-ratelimit-remaining") "0" = true /\
    StrictWrapper.quota_left
      (StrictWrapper.new_RateLimitError cls (hdrs !! "x-ratelimit-reset")) = left.
Proof.
  intros (d & hdrs & Hr & Hz & Hq). exists d, hdrs.
  split; [exact Hr|]. split; [now apply is_string_true|exact Hq].
Qed.

(** X26: an instance of [RateLimitError] without a [response] does not read
    as an exhausted quota.  When every answer is a successful one that reports
    zero remaining quota and the [RateLimitError] built from it does not read
    as an exhausted quota, the variant that throws it spends the budget on it:
    with a budget of [n] it issues [n + 1] requests without waiting in between,
    logs an error each time and throws the one built from the last answer.  No
    payload reaches the caller although every request succeeded. *)
Theorem unreported_rate_limit_spends_budget {D}
    (cls : option string -> option ErrorResponse) (request : nat -> Response D)
    (n : nat) fuel :
  (forall reset,
      cls reset = None ->
      StrictWrapper.quota_left (StrictWrapper.new_RateLimitError cls reset) = true) /\
  forall w,
    (forall i, (i <= n)%nat -> exhausted_success cls (request (calls w + i)%nat) true) ->
    exists d hdrs w',
      request (calls w + n)%nat = Ok d hdrs /\
      StrictWrapper.requestWrapper cls (S n + fuel) request (Z.of_nat n) w
      = Exn (StrictWrapper.new_RateLimitError cls (hdrs !! "x-ratelimit-reset")) w' /\
      calls w' = (calls w + n + 1)%nat /\ now w' = now w /\ disk w' = disk w /\
      length (console w') = (length (console w) + n + 1)%nat.
Proof.
  split.
  { intros reset Hnone. unfold StrictWrapper.quota_left, error_header,
      StrictWrapper.new_RateLimitError. simpl. now rewrite Hnone. }
  induction n as [|n IH]; intros w Hall.
  - destruct (exhausted_success_inv cls _ _ (Hall 0%nat (le_n 0))) as (d & h & Hr & Hz & Hq).
    exists d, h, (log (LogError (StrictWrapper.new_RateLimitError cls
                                   (h !! "x-ratelimit-reset"))) (called w)).
    split; [exact Hr|]. rewrite Nat.add_0_r in Hr.
    change (1 + fuel)%nat with (S fuel).
    rewrite strict_unfold, Hr, Hz, strict_handler_unfold, Hq. simpl.
    repeat split; try lia. rewrite List.length_app. simpl. lia.
  - destruct (exhausted_success_inv cls _ _ (Hall 0%nat ltac:(lia))) as (d0 & h0 & Hr & Hz & Hq).
    rewrite Nat.add_0_r in Hr.
    set (err := StrictWrapper.new_RateLimitError cls (h0 !! "x-ratelimit-reset")) in *.
    destruct (IH (log (LogError err) (called w))) as (d & h & w' & Hlast & Hrun & Hc & Hn & Hd & Hl).
    { intros i Hi. specialize (Hall (S i) ltac:(lia)).
      replace (calls w + S i)%nat with (S (calls w) + i)%nat in Hall by lia.
      exact Hall. }
    simpl in Hlast, Hc, Hn, Hd, Hl.
    exists d, h, w'.
    split; [replace (calls w + S n)%nat with (S (calls w) + n)%nat by lia; exact Hlast|].
    split.
    + change (S (S n) + fuel)%nat with (S (S n + fuel)).
      rewrite strict_unfold, Hr, Hz, strict_handler_unfold. fold err. rewrite Hq.
      replace (negb (Z.of_nat (S n) =? 0)) with true
        by (symmetry; apply negb_true_iff, Z.eqb_neq; lia).
      replace (Z.of_nat (S n) - 1) with (Z.of_nat n) by lia.
      exact Hrun.
    + rewrite List.length_app in Hl. simpl in Hl.
      repeat split; [lia|exact Hn|exact Hd|lia].
Qed.

Lemma unreported_rate_limit_spends_budget_witness :
  exists d hdrs w',
    (fun _ : nat => Ok 7 limited_headers) (calls w0 + 1)%nat = Ok d hdrs /\
    StrictWrapper.requestWrapper silent_class 2 (fun _ => Ok 7 limited_headers) 1 w0
    = Exn (StrictWrapper.new_RateLimitError silent_class (hdrs !! "x-ratelimit-reset")) w' /\
    calls w' = 2%nat /\ now w' = now w0 /\ disk w' = disk w0 /\
    length (console w') = 2%nat.
Proof.
  refine (proj2 (unreported_rate_limit_spends_budget silent_class
                   (fun _ => Ok 7 limited_headers) 1 0) w0 _).
  intros i Hi. exists 7, limited_headers.
  split; [reflexivity|]. split; vm_compute; reflexivity.
Defined.

(** X27: an instance of [RateLimitError] whose [response] has the header
    ['x-ratelimit-remaining'] at ['0'] reads as an exhausted quota.  When the
    [RateLimitError] built from a successful answer that reports zero remaining
    quota reads so, the variant that throws it awaits the reset and calls the
    operation again with the budget untouched: after any number of such answers
    the first answer with quota left is returned, whatever the budget (zero
    included), with one notice and no error on the console per wait. *)
Theorem reported_rate_limit_is_awaited {D}
    (cls : option string -> option ErrorResponse) (request : nat -> Response D)
    (k : nat) fuel retries :
  (forall reset r,
      cls reset = Some r ->
      headers r !! "x-ratelimit-remaining" = Some "0" ->
      StrictWrapper.quota_left (StrictWrapper.new_RateLimitError cls reset) = false) /\
  forall w data hdrs,
    (forall i, (i < k)%nat -> exhausted_success cls (request (calls w + i)%nat) false) ->
    request (calls w + k)%nat = Ok data hdrs ->
    hdrs !! "x-ratelimit-remaining" <> Some "0" ->
    exists w',
      StrictWrapper.requestWrapper cls (k + S fuel) request retries w = Val data w' /\
      calls w' = (calls w + k + 1)%nat /\ disk w' = disk w /\ now w <= now w' /\
      length (console w') = (length (console w) + k)%nat.
Proof.
  split.
  { intros reset r Hsome Hz. unfold StrictWrapper.quota_left, error_header,
      StrictWrapper.new_RateLimitError. simpl. rewrite Hsome, Hz. reflexivity. }
  induction k as [|k IH]; intros w data hdrs Hall Hok Hleft.
  - rewrite Nat.add_0_r in Hok. apply is_string_false in Hleft.
    exists (called w). simpl Nat.add at 1.
    rewrite strict_unfold, Hok, Hleft. simpl. repeat split; lia.
  - destruct (exhausted_success_inv cls _ _ (Hall 0%nat ltac:(lia))) as (d0 & h0 & Hr & Hz & Hq).
    rewrite Nat.add_0_r in Hr.
    set (err := StrictWrapper.new_RateLimitError cls (h0 !! "x-ratelimit-reset")) in *.
    assert (Hw1 : calls (StrictWrapper.await_reset err (called w)) = S (calls w) /\
                  disk (StrictWrapper.await_reset err (called w)) = disk w /\
                  now w <= now (StrictWrapper.await_reset err (called w)) /\
                  length (console (StrictWrapper.await_reset err (called w)))
                  = S (length (console w))).
    { unfold StrictWrapper.await_reset. destruct (resetMoment err); simpl;
        rewrite List.length_app; simpl; repeat split; lia. }
    destruct Hw1 as (Hc1 & Hd1 & Hn1 & Hl1).
    destruct (IH (StrictWrapper.await_reset err (called w)) data hdrs)
      as (w' & Hrun & Hc & Hd & Hn & Hl).
    { intros i Hi. rewrite Hc1. specialize (Hall (S i) ltac:(lia)).
      replace (calls w + S i)%nat with (S (calls w) + i)%nat in Hall by lia.
      exact Hall. }
    { rewrite Hc1. replace (calls w + S k)%nat with (S (calls w) + k)%nat in Hok by lia.
      exact Hok. }
    { exact Hleft. }
    exists w'. split.
    + change (S k + S fuel)%nat with (S (k + S fuel)).
      rewrite strict_unfold, Hr, Hz, strict_handler_unfold. fold err. rewrite Hq.
      exact Hrun.
    + repeat split; [lia|congruence|lia|lia].
Qed.

Lemma reported_rate_limit_is_awaited_witness :
  exists w',
    StrictWrapper.requestWrapper reporting_class 2
      (fun n => match n with O => Ok 7 limited_headers | _ => Ok 8 ∅ end) 0 w0
    = Val 8 w' /\
    calls w' = 2%nat /\ disk w' = disk w0 /\ now w0 <= now w' /\
    length (console w') = 1%nat.
Proof.
  refine (proj2 (reported_rate_limit_is_awaited reporting_class
                   (fun n => match n with O => Ok 7 limited_headers | _ => Ok 8 ∅ end)
                   1 0 0) w0 8 ∅ _ eq_refl _).
  - intros i Hi. exists 7, limited_headers.
    destruct i as [|i]; [|lia].
    split; [reflexivity|]. split; vm_compute; reflexivity.
  - rewrite lookup_empty. discriminate.
Defined.
